(** * A shallow embedding of backend/crawler.py and backend/main.py

    Text is a Python [str]: a list of Unicode code points, [text := list Z].
    Regular expressions of the source are written out as deterministic
    matchers, one per pattern, following Python's [re] semantics
    (leftmost match, alternatives tried in order, greedy quantifiers). *)

From Stdlib Require Import ZArith List Bool Lia String Ascii.
Import ListNotations.
Open Scope Z_scope.

Definition text := list Z.

(** ASCII literals as code-point lists. *)
Fixpoint cps (s : string) : text :=
  match s with
  | EmptyString => []
  | String c s' => Z.of_nat (nat_of_ascii c) :: cps s'
  end.

(** Chinese characters used by the source. *)
Definition JIN : Z := 20170.    (* U+4ECA *)
Definition TIAN : Z := 22825.   (* U+5929 *)
Definition ZUO : Z := 26152.    (* U+6628 *)
Definition WEI : Z := 26410.    (* U+672A *)
Definition ZHI : Z := 30693.    (* U+77E5 *)
Definition DA : Z := 22823.     (* U+5927 *)
Definition XIAO : Z := 23567.   (* U+5C0F *)

Fixpoint text_eqb (a b : text) : bool :=
  match a, b with
  | [], [] => true
  | x :: a', y :: b' => (x =? y) && text_eqb a' b'
  | _, _ => false
  end.

Fixpoint starts_with (p t : text) : bool :=
  match p, t with
  | [], _ => true
  | x :: p', y :: t' => (x =? y) && starts_with p' t'
  | _ :: _, [] => false
  end.

(** Python [p in t]. *)
Fixpoint contains (p t : text) : bool :=
  starts_with p t || match t with [] => false | _ :: t' => contains p t' end.

(** Python [t.endswith(p)]. *)
Definition ends_with (p t : text) : bool := starts_with (rev p) (rev t).

(** ** Character classes of Python [str] patterns (CPython 3.11 tables). *)

(** [\s] and [str.isspace]: the Unicode white-space characters. *)
Definition is_space (c : Z) : bool :=
  ((9 <=? c) && (c <=? 13)) || ((28 <=? c) && (c <=? 32)) || (c =? 133)
  || (c =? 160) || (c =? 5760) || ((8192 <=? c) && (c <=? 8202))
  || (c =? 8232) || (c =? 8233) || (c =? 8239) || (c =? 8287) || (c =? 12288).

(** [\d]: the decimal digits (category Nd); each block is ten consecutive
    code points starting at a digit zero. *)
Definition nd_zeros : list Z :=
  [0x30; 0x660; 0x6f0; 0x7c0; 0x966; 0x9e6; 0xa66; 0xae6; 0xb66; 0xbe6;
   0xc66; 0xce6; 0xd66; 0xde6; 0xe50; 0xed0; 0xf20; 0x1040; 0x1090; 0x17e0;
   0x1810; 0x1946; 0x19d0; 0x1a80; 0x1a90; 0x1b50; 0x1bb0; 0x1c40; 0x1c50;
   0xa620; 0xa8d0; 0xa900; 0xa9d0; 0xa9f0; 0xaa50; 0xabf0; 0xff10; 0x104a0;
   0x10d30; 0x11066; 0x110f0; 0x11136; 0x111d0; 0x112f0; 0x11450; 0x114d0;
   0x11650; 0x116c0; 0x11730; 0x118e0; 0x11950; 0x11c50; 0x11d50; 0x11da0;
   0x16a60; 0x16ac0; 0x16b50; 0x1d7ce; 0x1d7d8; 0x1d7e2; 0x1d7ec; 0x1d7f6;
   0x1e140; 0x1e2f0; 0x1e950; 0x1fbf0].

(** The value [int()] gives to a decimal digit, [None] off the class. *)
Definition digit_value (c : Z) : option Z :=
  match find (fun z => (z <=? c) && (c <? z + 10)) nd_zeros with
  | Some z => Some (c - z)
  | None => None
  end.

Definition is_digit (c : Z) : bool :=
  match digit_value c with Some _ => true | None => false end.

(** [int(s)] on a non-empty run of decimal digits. *)
Definition digit_step (acc : Z) (c : Z) : Z :=
  acc * 10 + match digit_value c with Some v => v | None => 0 end.

Definition int_of_digits (ds : text) : Z := fold_left digit_step ds 0.

(** Case folding of [re.IGNORECASE] on ASCII letters: the 52 ASCII letters
    and the four non-ASCII letters U+0130, U+0131, U+017F, U+212A. *)
Definition fold (c : Z) : Z :=
  if (65 <=? c) && (c <=? 90) then c + 32
  else if (c =? 0x130) || (c =? 0x131) then 105
  else if c =? 0x17f then 115
  else if c =? 0x212a then 107
  else c.

(** [str.lower] as seen by the source's tests.  Every use compares the
    lowered text with an ASCII marker.  The only non-ASCII characters whose
    lowercase holds ASCII letters are U+0130 (lowered to [i] then U+0307) and
    U+212A (lowered to [k]); no marker contains [k], and in every marker an
    [i] is followed by another ASCII character, so neither can take part in
    a match and lowering the ASCII capitals alone decides every test. *)
Definition lower_char (c : Z) : Z :=
  if (65 <=? c) && (c <=? 90) then c + 32 else c.

Definition lower (t : text) : text := map lower_char t.

(** ** [_clean_text]: [re.sub(r"\s+", " ", s or "").strip()] *)

Fixpoint collapse_ws (in_run : bool) (t : text) : text :=
  match t with
  | [] => []
  | c :: t' =>
      if is_space c then
        if in_run then collapse_ws true t' else 32 :: collapse_ws true t'
      else c :: collapse_ws false t'
  end.

Fixpoint lstrip (t : text) : text :=
  match t with
  | c :: t' => if is_space c then lstrip t' else t
  | [] => []
  end.

(** [str.strip()] *)
Definition strip (t : text) : text := rev (lstrip (rev (lstrip t))).

Definition clean_text (s : text) : text := strip (collapse_ws false s).

(** ** [_guess_size] *)

(** Matcher of [(\d+(?:\.\d+)?)\s?(GB|GiB|MB|MiB|KB)] (IGNORECASE) at the
    start of [t]: the length of the match.  Every backtracking alternative
    leaves a digit, a dot or a space in front of the unit, so the greedy
    path is the only one that can succeed. *)
Fixpoint digits_prefix (t : text) : nat :=
  match t with
  | c :: t' => if is_digit c then S (digits_prefix t') else O
  | [] => O
  end.

Fixpoint ci_prefix (p t : text) : bool :=
  match p, t with
  | [], _ => true
  | x :: p', y :: t' => (fold x =? fold y) && ci_prefix p' t'
  | _ :: _, [] => false
  end.

(** Alternatives of a group, tried in order: the length of the first that
    matches at the start of [t]. *)
Fixpoint first_alt (alts : list text) (t : text) : option nat :=
  match alts with
  | [] => None
  | a :: alts' => if ci_prefix a t then Some (List.length a) else first_alt alts' t
  end.

Definition size_units : list text :=
  [cps "GB"; cps "GiB"; cps "MB"; cps "MiB"; cps "KB"].

Definition size_match_at (t : text) : option nat :=
  let n1 := digits_prefix t in
  if (n1 =? 0)%nat then None else
  let t1 := skipn n1 t in
  let n2 := match t1 with
            | 46 :: t2 => let k := digits_prefix t2 in
                          if (k =? 0)%nat then O else S k
            | _ => O
            end in
  let t2 := skipn n2 t1 in
  let n3 := match t2 with c :: _ => if is_space c then 1%nat else O | [] => O end in
  match first_alt size_units (skipn n3 t2) with
  | Some n4 => Some (n1 + n2 + n3 + n4)%nat
  | None => None
  end.

(** [re.search] with a matcher anchored at each position: [m.group(0)]. *)
Fixpoint re_search (m : text -> option nat) (t : text) : option text :=
  match m t with
  | Some n => Some (firstn n t)
  | None => match t with [] => None | _ :: t' => re_search m t' end
  end.

Definition size_sentinel : text := [WEI; ZHI; DA; XIAO].

(** [m.group(0) if m else text or "未知大小"] *)
Definition guess_size (t : text) : text :=
  match re_search size_match_at t with
  | Some g => g
  | None => match t with [] => size_sentinel | _ => t end
  end.

(** ** [_guess_quality]

    [WEB[- ]?DL] is written as its three literal expansions in the order the
    greedy [?] tries them; at most one of them matches at a position. *)
Definition q_patterns : list (list text) :=
  [ [cps "2160p"; cps "4K"; cps "UHD"];
    [cps "1080p"; cps "BDRip"; cps "BluRay";
     cps "WEB-DL"; cps "WEB DL"; cps "WEBDL";
     cps "WEB-Rip"; cps "WEB Rip"; cps "WEBRip";
     cps "WEBRip"; cps "WEBrip"; cps "HEVC"; cps "x265"; cps "x264"];
    [cps "720p"] ].

Fixpoint guess_quality_from (pats : list (list text)) (t : text) : text :=
  match pats with
  | [] => cps "unknown"
  | pat :: pats' =>
      match re_search (first_alt pat) t with
      | Some g => g
      | None => guess_quality_from pats' t
      end
  end.

Definition guess_quality (t : text) : text := guess_quality_from q_patterns t.

(** ** [_looks_like_captcha] *)
Definition captcha_markers : list text :=
  [cps "i'm not a robot"; cps "captcha"; cps "visitor-test-form"; cps "visitor_test"].

Definition looks_like_captcha (html : text) : bool :=
  let lower_html := lower html in
  existsb (fun m => contains m lower_html) captcha_markers.

(** ** Exceptions and results *)

Inductive exn :=
| ValueError (msg : string)
| OverflowError (msg : string)
| RuntimeError (msg : string)
| IndexError (msg : string)
| HTTPError (msg : string)
| OSError (msg : string)               (* PermissionError, IsADirectoryError, ... *)
| UnicodeDecodeError (msg : string)
| ParserRejectedMarkup (msg : string). (* bs4's wrapper of a parser failure *)

Inductive res (A : Type) :=
| Ok (a : A)
| Exc (e : exn).
Arguments Ok {A} a.
Arguments Exc {A} e.

Definition bind {A B} (m : res A) (k : A -> res B) : res B :=
  match m with Ok a => k a | Exc e => Exc e end.

Notation "x <- m ;; k" := (bind m (fun x => k))
  (at level 61, m at next level, right associativity).

(** ** [datetime] with its [tzinfo] *)

(** [TZ = ZoneInfo("Asia/Taipei")], or any other zone a caller's [now] has. *)
Inductive tzinfo := Taipei | OtherZone (key : string).

Record datetime := mkdt {
  dt_year : Z; dt_month : Z; dt_day : Z;
  dt_hour : Z; dt_minute : Z; dt_second : Z; dt_micro : Z;
  dt_tz : tzinfo }.

Definition is_leap (y : Z) : bool :=
  (Z.modulo y 4 =? 0) && (negb (Z.modulo y 100 =? 0) || (Z.modulo y 400 =? 0)).

Definition days_in_month (y m : Z) : Z :=
  if m =? 2 then (if is_leap y then 29 else 28)
  else if (m =? 4) || (m =? 6) || (m =? 9) || (m =? 11) then 30
  else 31.

(** [datetime(y, mo, d, hh, mm, tzinfo=tz)]: the constructor's range checks,
    in the order CPython makes them. *)
Definition mk_datetime (y mo d hh mm : Z) (tz : tzinfo) : res datetime :=
  if negb ((1 <=? y) && (y <=? 9999)) then Exc (ValueError "year is out of range")
  else if negb ((1 <=? mo) && (mo <=? 12)) then Exc (ValueError "month must be in 1..12")
  else if negb ((1 <=? d) && (d <=? days_in_month y mo)) then
    Exc (ValueError "day is out of range for month")
  else if negb ((0 <=? hh) && (hh <=? 23)) then Exc (ValueError "hour must be in 0..23")
  else if negb ((0 <=? mm) && (mm <=? 59)) then Exc (ValueError "minute must be in 0..59")
  else Ok (mkdt y mo d hh mm 0 0 tz).

(** A [datetime] value: its fields are in range. *)
Definition valid_datetime (x : datetime) : Prop :=
  1 <= dt_year x <= 9999 /\ 1 <= dt_month x <= 12 /\
  1 <= dt_day x <= days_in_month (dt_year x) (dt_month x) /\
  0 <= dt_hour x <= 23 /\ 0 <= dt_minute x <= 59 /\
  0 <= dt_second x <= 59 /\ 0 <= dt_micro x <= 999999.

(** A calendar date [(year, month, day)]. *)
Definition ymd := (Z * Z * Z)%type.

Definition date_of (x : datetime) : ymd := (dt_year x, dt_month x, dt_day x).

(** [(now - timedelta(days=1)).date()]: aware arithmetic works on the wall
    clock fields; stepping below 0001-01-01 raises [OverflowError]. *)
Definition prev_date (dt : ymd) : res ymd :=
  let '(y, m, d) := dt in
  if 1 <? d then Ok (y, m, d - 1)
  else if 1 <? m then Ok (y, m - 1, days_in_month y (m - 1))
  else if 1 <? y then Ok (y - 1, 12, 31)
  else Exc (OverflowError "date value out of range").

(** ** [_parse_cn_time] *)

(** At most [k] leading decimal digits (a greedy [\d{1,k}]). *)
Fixpoint digits_upto (k : nat) (t : text) : text * text :=
  match k, t with
  | S k', c :: t' =>
      if is_digit c then let '(ds, r) := digits_upto k' t' in (c :: ds, r)
      else ([], t)
  | _, _ => ([], t)
  end.

(** [\s+] : the text after a non-empty run of white space. *)
Definition spaces1 (t : text) : option text :=
  match t with
  | c :: _ => if is_space c then Some (lstrip t) else None
  | [] => None
  end.

(** [(\d{1,2}):(\d{2})$] *)
Definition match_hhmm (t : text) : option (text * text) :=
  let '(hh, r) := digits_upto 2 t in
  if (List.length hh =? 0)%nat then None else
  match r with
  | 58 :: r' =>
      let '(mm, r'') := digits_upto 2 r' in
      match r'' with
      | [] => if (List.length mm =? 2)%nat then Some (hh, mm) else None
      | _ => None
      end
  | _ => None
  end.

(** [re.match(r"^(今天|昨天)\s+(\d{1,2}):(\d{2})$", t)]: whether the day word
    is 今天, and the two numbers. *)
Definition match_day_time (t : text) : option (bool * text * text) :=
  match t with
  | w1 :: w2 :: r =>
      let today := (w1 =? JIN) && (w2 =? TIAN) in
      let yesterday := (w1 =? ZUO) && (w2 =? TIAN) in
      if today || yesterday then
        match spaces1 r with
        | Some r' => match match_hhmm r' with
                     | Some (hh, mm) => Some (today, hh, mm)
                     | None => None
                     end
        | None => None
        end
      else None
  | _ => None
  end.

(** [re.match(r"^(\d{4})-(\d{1,2})-(\d{1,2})\s+(\d{1,2}):(\d{2})$", t)] *)
Definition match_abs_time (t : text) : option (text * text * text * text * text) :=
  let '(y, r1) := digits_upto 4 t in
  if negb (List.length y =? 4)%nat then None else
  match r1 with
  | 45 :: r2 =>
      let '(mo, r3) := digits_upto 2 r2 in
      if (List.length mo =? 0)%nat then None else
      match r3 with
      | 45 :: r4 =>
          let '(d, r5) := digits_upto 2 r4 in
          if (List.length d =? 0)%nat then None else
          match spaces1 r5 with
          | Some r6 => match match_hhmm r6 with
                       | Some (hh, mm) => Some (y, mo, d, hh, mm)
                       | None => None
                       end
          | None => None
          end
      | _ => None
      end
  | _ => None
  end.

(** [_parse_cn_time(cell_text, now)]; its only caller passes [now], so the
    [now or datetime.now(TZ)] default never applies. *)
Definition parse_cn_time (cell_text : text) (now : datetime) : res datetime :=
  let t := strip cell_text in
  match match_day_time t with
  | Some (is_today, hh, mm) =>
      base <- (if is_today then Ok (date_of now) else prev_date (date_of now)) ;;
      let '(by_, bm, bd) := base in
      mk_datetime by_ bm bd (int_of_digits hh) (int_of_digits mm) Taipei
  | None =>
      match match_abs_time t with
      | Some (y, mo, d, hh, mm) =>
          mk_datetime (int_of_digits y) (int_of_digits mo) (int_of_digits d)
                      (int_of_digits hh) (int_of_digits mm) Taipei
      | None => Ok now
      end
  end.

(** ** The parsed document (BeautifulSoup's tree) *)

Set Warnings "-register-all".

(** Tags as the parsers leave them (lower-case names), attributes as the
    [attrs] dict, text nodes; comments are not part of [get_text()]. *)
Inductive node :=
| Elem (tag : text) (attrs : list (text * text)) (kids : list node)
| TextNode (s : text).

Fixpoint get_attr (k : text) (attrs : list (text * text)) : option text :=
  match attrs with
  | [] => None
  | (k', v) :: attrs' => if text_eqb k k' then Some v else get_attr k attrs'
  end.

(** [tag.get_text()]: all text descendants in document order. *)
Fixpoint get_text (n : node) : text :=
  match n with
  | TextNode s => s
  | Elem _ _ kids =>
      (fix go (l : list node) : text :=
         match l with [] => [] | k :: l' => get_text k ++ go l' end) kids
  end.

Definition is_tag (name : text) (n : node) : bool :=
  match n with Elem t _ _ => text_eqb t name | TextNode _ => false end.

Definition has_attr (k : text) (n : node) : bool :=
  match n with
  | Elem _ attrs _ => match get_attr k attrs with Some _ => true | None => false end
  | TextNode _ => false
  end.

Definition children (n : node) : list node :=
  match n with Elem _ _ kids => kids | TextNode _ => [] end.

(** [tag.find_all(name, recursive=False)] *)
Definition find_all_children (name : text) (n : node) : list node :=
  filter (is_tag name) (children n).

(** Pre-order list of the descendants of a forest. *)
Fixpoint descendants_of (n : node) : list node :=
  match n with
  | TextNode _ => []
  | Elem _ _ kids =>
      (fix go (l : list node) : list node :=
         match l with [] => [] | k :: l' => (k :: descendants_of k) ++ go l' end) kids
  end.

Definition forest_nodes (doc : list node) : list node :=
  flat_map (fun n => n :: descendants_of n) doc.

(** [tag.find("a", href=True)]: the first descendant [a] with an [href]. *)
Definition find_a_href (n : node) : option node :=
  find (fun d => is_tag (cps "a") d && has_attr (cps "href") d) (descendants_of n).

(** [soup.find_all("a", href=True)] over a whole document. *)
Definition all_a_href (doc : list node) : list node :=
  filter (fun d => is_tag (cps "a") d && has_attr (cps "href") d) (forest_nodes doc).

Definition href_of (n : node) : text :=
  match n with
  | Elem _ attrs _ => match get_attr (cps "href") attrs with Some v => v | None => [] end
  | TextNode _ => []
  end.

Definition id_is (v : text) (n : node) : bool :=
  match n with
  | Elem _ attrs _ => match get_attr (cps "id") attrs with
                      | Some v' => text_eqb v v' | None => false end
  | TextNode _ => false
  end.

(** [soup.select_one("table#listTable tbody#data_list")]: the first node in
    document order that is a [tbody#data_list] below a [table#listTable]. *)
Fixpoint select_in (under : bool) (n : node) : option node :=
  match n with
  | TextNode _ => None
  | Elem _ _ kids =>
      if under && is_tag (cps "tbody") n && id_is (cps "data_list") n then Some n
      else
        let under' := under || (is_tag (cps "table") n && id_is (cps "listTable") n) in
        (fix go (l : list node) : option node :=
           match l with
           | [] => None
           | k :: l' => match select_in under' k with Some r => Some r | None => go l' end
           end) kids
  end.

Fixpoint select_list_table (doc : list node) : option node :=
  match doc with
  | [] => None
  | n :: doc' => match select_in false n with
                 | Some r => Some r
                 | None => select_list_table doc'
                 end
  end.

(** ** HTTP client *)

Inductive http_outcome :=
| Response (status_code : Z) (body : text)
| NetworkFailure (msg : string).

(** An [httpx.Client]: open or closed, and what the network answers. *)
Record client := mkclient { cl_open : bool; cl_serve : text -> http_outcome }.

(** Observable use of the client. *)
Inductive event :=
| EvGet (url : text) (client_was_open : bool)
| EvClose.

(** [client.get(url)]: a closed client raises without sending. *)
Definition client_get (c : client) (url : text) : res (Z * text) * event :=
  (if cl_open c then
     match cl_serve c url with
     | Response s b => Ok (s, b)
     | NetworkFailure m => Exc (HTTPError m)
     end
   else Exc (RuntimeError "Cannot send a request, as the client has been closed."),
   EvGet url (cl_open c)).

(** ** The record *)

(** [AnimeInfo]; [date] holds the [datetime] whose [isoformat()] the source
    stores in the field. *)
Record AnimeInfo := mkinfo {
  title : text; url : text; size : text; quality : text;
  date : datetime; source : text }.

Definition BASE_URL : text := cps "https://comicat.org/".
Definition COMICAT_TODAY_URL : text := cps "https://comicat.org/today-1.html".
Definition magnet_prefix : text := cps "magnet:?xt=urn:btih:".

Section Crawler.

(** The two HTML parsers ([html.parser] and [lxml]) and [urljoin], library
    code the crawler calls.  [BeautifulSoup(html, "html.parser")] may raise
    (on Python 3.10-3.12 [html.parser] fails an assertion on markup such as
    "<![foo[", which bs4 turns into [ParserRejectedMarkup]); [urljoin] may
    raise [ValueError]. *)
Variable parse_html_parser : text -> res (list node).
Variable parse_lxml : text -> list node.
Variable urljoin : text -> text -> res text.

Definition is_download_href (href : text) : bool :=
  ends_with (cps ".torrent") (lower href) || contains (cps "download") (lower href).

(** [_extract_magnet_from_detail] *)
Definition extract_magnet_from_detail (detail_html : text) : text :=
  let hrefs := map (fun a => strip (href_of a)) (all_a_href (parse_lxml detail_html)) in
  match find (starts_with magnet_prefix) hrefs with
  | Some h => h
  | None => match find is_download_href hrefs with
            | Some h => h
            | None => []
            end
  end.

(** [_fetch_detail_link]: every exception is swallowed. *)
Definition fetch_detail_link (c : client) (u : text) : text * event :=
  let '(r, ev) := client_get c u in
  (match r with
   | Ok (status, body) =>
       if status =? 200 then
         match extract_magnet_from_detail body with [] => u | magnet => magnet end
       else u
   | Exc _ => u
   end, ev).

(** Lines 156-159: the row's URL, the new count, the detail request. *)
Definition resolve_url (client_for_detail : option client) (max_detail : Z)
    (detail_fetch_count : Z) (detail_url : text) : text * Z * list event :=
  match client_for_detail with
  | Some c =>
      if detail_fetch_count <? max_detail then
        let '(u, ev) := fetch_detail_link c detail_url in
        (u, detail_fetch_count + 1, [ev])
      else (detail_url, detail_fetch_count, [])
  | None => (detail_url, detail_fetch_count, [])
  end.

Definition res_cons {A} (x : A) (r : res (list A)) : res (list A) :=
  match r with Ok l => Ok (x :: l) | Exc e => Exc e end.

(** The loop of [_parse_today_table] over the direct rows, from the count
    [detail_fetch_count] on; the events are the detail requests. *)
Fixpoint parse_rows (rows : list node) (client_for_detail : option client)
    (max_detail : Z) (now : datetime) (detail_fetch_count : Z)
    : res (list AnimeInfo) * list event :=
  match rows with
  | [] => (Ok [], [])
  | tr :: rest =>
      let tds := find_all_children (cps "td") tr in
      if (List.length tds <? 4)%nat
      then parse_rows rest client_for_detail max_detail now detail_fetch_count
      else
      let date_text := clean_text (get_text (nth 0 tds (TextNode []))) in
      match parse_cn_time date_text now with
      | Exc e => (Exc e, [])
      | Ok dt =>
      match find_a_href (nth 2 tds (TextNode [])) with
      | None => parse_rows rest client_for_detail max_detail now detail_fetch_count
      | Some title_a =>
      let title_ := clean_text (get_text title_a) in
      match urljoin BASE_URL (strip (href_of title_a)) with
      | Exc e => (Exc e, [])
      | Ok detail_url =>
      let size_text := guess_size (clean_text (get_text (nth 3 tds (TextNode [])))) in
      let quality_ := guess_quality title_ in
      let '(final_url, count', evs) :=
        resolve_url client_for_detail max_detail detail_fetch_count detail_url in
      let info := mkinfo title_ final_url size_text quality_ dt (cps "comicat.org") in
      let '(r, evs') := parse_rows rest client_for_detail max_detail now count' in
      (res_cons info r, evs ++ evs')
      end
      end
      end
  end.

(** [_parse_today_table(html, client_for_detail, max_detail)], with [now]
    the reading of [datetime.now(TZ)]. *)
Definition parse_today_table (html : text) (client_for_detail : option client)
    (max_detail : Z) (now : datetime) : res (list AnimeInfo) * list event :=
  match parse_html_parser html with
  | Exc e => (Exc e, [])
  | Ok soup =>
      match select_list_table soup with
      | None => (Ok [], [])
      | Some table =>
          parse_rows (find_all_children (cps "tr") table) client_for_detail max_detail now 0
      end
  end.

(** ** [scrape_comicat_today] *)

(** The diagnostics the function returns (the source's Chinese strings). *)
Inductive debug_msg :=
| MsgServedFromCache  (* "线上页面被验证码拦截，使用本地缓存 last_comicat_page.html 解析" *)
| MsgStillChallenged  (* "仍然是验证码/人机校验页面（没有本地缓存可用，请检查/更新 COMICAT_COOKIE）" *)
| MsgNoEntries        (* "页面结构已加载，但没有从表格中解析到条目（可能页面改版或选择器不匹配）" *)
| MsgOK.              (* "OK" *)

(** The file [last_comicat_page.html]: absent, or present with bytes that
    [encoding="utf-8"] decodes to [Ok t], or whose decoding raises [Exc e]
    ([UnicodeDecodeError]).  Paths are POSIX ones: a text-mode write keeps
    "\n" as it is. *)
Definition snapshot := option (res text).

(** [with open(..., "w", encoding="utf-8") as f: f.write(html)] in its
    [try]: the file is replaced by [html] (a [resp.text], decoded with
    replacement characters, always encodes), or [open] raises (no write
    permission, a directory at the path), which is caught and logged. *)
Definition write_snapshot (writable : bool) (fs : snapshot) (html : text) : snapshot :=
  if writable then Some (Ok html) else fs.

(** The universal-newlines translation of a text-mode read ([newline=None]):
    "\r\n" and a lone "\r" both become "\n". *)
Fixpoint universal_newlines (t : text) : text :=
  match t with
  | [] => []
  | c :: t' =>
      if c =? 13 then
        match t' with
        | d :: t'' => if d =? 10 then 10 :: universal_newlines t''
                      else 10 :: universal_newlines t'
        | [] => [10]
        end
      else c :: universal_newlines t'
  end.

(** [with open(..., "r", encoding="utf-8") as f: html = f.read()] on an
    existing path (lines 214-215, no [try]): [read_error] is what [open]
    raises there, if anything ([PermissionError], [IsADirectoryError]);
    then the decoding, then the newline translation. *)
Definition read_snapshot (read_error : option exn) (content : res text) : res text :=
  match read_error with
  | Some e => Exc e
  | None =>
      match content with
      | Ok t => Ok (universal_newlines t)
      | Exc e => Exc e
      end
  end.

(** How the [with httpx.Client(...)] block (lines 202-226) ends: an early
    [return], or the HTML and diagnostic the code goes on with. *)
Inductive block_exit :=
| Returned (items : list AnimeInfo) (msg : debug_msg)
| Continue (html : text) (msg : debug_msg).

(** Lines 202-226, from the snapshot before the call, whether it can be
    written and what opening it for reading raises: the snapshot after it,
    the client uses (ending with the close of the [with]), the exit. *)
Definition with_client_block (fs : snapshot) (writable : bool)
    (read_error : option exn) (c : client)
    : snapshot * list event * res block_exit :=
  let '(r, ev) := client_get c COMICAT_TODAY_URL in
  match r with
  | Exc e => (fs, [ev; EvClose], Exc e)
  | Ok (_, html) =>
      let fs1 := write_snapshot writable fs html in
      if looks_like_captcha html then
        match fs1 with
        | Some content =>
            match read_snapshot read_error content with
            | Ok cached => (fs1, [ev; EvClose], Ok (Continue cached MsgServedFromCache))
            | Exc e => (fs1, [ev; EvClose], Exc e)
            end
        | None => (fs1, [ev; EvClose], Ok (Returned [] MsgStillChallenged))
        end
      else
        let fs2 := write_snapshot writable fs1 html in
        (fs2, [ev; EvClose], Ok (Continue html MsgOK))
  end.

(** [scrape_comicat_today()] with the network [serve], the snapshot [fs],
    whether the file can be written, what opening it for reading raises,
    and the clock reading [now]. The request headers (and the cookie) only
    shape what [serve] answers. *)
Definition scrape_comicat_today (serve : text -> http_outcome) (fs : snapshot)
    (writable : bool) (read_error : option exn) (now : datetime)
    : snapshot * list event * res (list AnimeInfo * debug_msg) :=
  let c := mkclient true serve in
  let '(fs', evs, r) := with_client_block fs writable read_error c in
  match r with
  | Exc e => (fs', evs, Exc e)
  | Ok (Returned items msg) => (fs', evs, Ok (items, msg))
  | Ok (Continue html debug) =>
      (* the [with] block has exited: the client is closed *)
      let closed := mkclient false serve in
      let '(items_r, evs2) := parse_today_table html (Some closed) 12 now in
      (fs', evs ++ evs2,
       match items_r with
       | Exc e => Exc e
       | Ok [] => Ok ([], MsgNoEntries)
       | Ok items => Ok (firstn 5 items, debug)
       end)
  end.

End Crawler.

(** ** [main.scrape_latest] *)

(** The Python values the handler handles or returns. *)
Inductive pyval :=
| PStr (s : text)
| PMsg (m : debug_msg)   (* a diagnostic [str], never empty *)
| PInfo (a : AnimeInfo)
| PList (l : list pyval)
| PTuple (l : list pyval)
| PDict (kv : list (text * pyval)).

(** Python truth value. *)
Definition truthy (v : pyval) : bool :=
  match v with
  | PStr s => negb (Nat.eqb (List.length s) 0)
  | PMsg _ | PInfo _ => true
  | PList l | PTuple l => negb (Nat.eqb (List.length l) 0)
  | PDict kv => negb (Nat.eqb (List.length kv) 0)
  end.

(** [v[0]] *)
Definition getitem0 (v : pyval) : res pyval :=
  match v with
  | PList (x :: _) | PTuple (x :: _) => Ok x
  | _ => Exc (IndexError "tuple index out of range")
  end.

(** The [(items, debug_msg)] tuple [scrape_comicat_today] returns. *)
Definition result_value (r : list AnimeInfo * debug_msg) : pyval :=
  PTuple [PList (map PInfo (fst r)); PMsg (snd r)].

Definition exn_msg (e : exn) : string :=
  match e with
  | ValueError m | OverflowError m | RuntimeError m | IndexError m | HTTPError m
  | OSError m | UnicodeDecodeError m | ParserRejectedMarkup m => m
  end.

Definition error_payload (msg : text) : pyval := PDict [(cps "error", PStr msg)].

(** [scrape_latest()], given how the call [scrape_comicat_today()] ends. *)
Definition scrape_latest (call : res (list AnimeInfo * debug_msg)) : pyval :=
  match call with
  | Exc e => error_payload (cps "Scrape failed: " ++ cps (exn_msg e))
  | Ok r =>
      let results := result_value r in
      if negb (truthy results) then error_payload (cps "No new anime releases today.")
      else match getitem0 results with
           | Ok v => v
           | Exc e => error_payload (cps "Scrape failed: " ++ cps (exn_msg e))
           end
  end.

(** ** Spec-side helpers *)

Definition quality_group_4k : list text := nth 0 q_patterns [].
Definition quality_group_1080 : list text := nth 1 q_patterns [].
Definition quality_group_720 : list text := nth 2 q_patterns [].

(** ASCII decimal digit of value [k]. *)
Definition digit (k : Z) : Z := 48 + k.

Definition two_digits (n : Z) : text := [digit (n / 10); digit (n mod 10)].

(** "今天 HH:MM", "昨天 HH:MM" and "YYYY-MM-DD HH:MM" with two-digit fields. *)
Definition today_text (hh mm : Z) : text :=
  [JIN; TIAN; 32] ++ two_digits hh ++ [58] ++ two_digits mm.
Definition yesterday_text (hh mm : Z) : text :=
  [ZUO; TIAN; 32] ++ two_digits hh ++ [58] ++ two_digits mm.
Definition abs_text (y mo d hh mm : Z) : text :=
  two_digits (y / 100) ++ two_digits (y mod 100) ++ [45] ++ two_digits mo ++ [45]
  ++ two_digits d ++ [32] ++ two_digits hh ++ [58] ++ two_digits mm.

(** 2025-10-26T10:00:00+08:00 *)
Definition sample_now : datetime := mkdt 2025 10 26 10 0 0 0 Taipei.

(** Building blocks of a listing page. *)
Definition td (s : text) : node := Elem (cps "td") [] [TextNode s].

Definition title_td (title_text href : text) : node :=
  Elem (cps "td") [] [Elem (cps "a") [(cps "href", href)] [TextNode title_text]].

Definition listing_row (when title_text href sz : text) : node :=
  Elem (cps "tr") [] [td when; td (cps "anime"); title_td title_text href; td sz].

Definition listing_page (rows : list node) : list node :=
  [Elem (cps "html") []
     [Elem (cps "body") []
        [Elem (cps "table") [(cps "id", cps "listTable")]
           [Elem (cps "tbody") [(cps "id", cps "data_list")] rows]]]].

(** An [urljoin] for paths relative to the site root. *)
Definition join_path (base href : text) : res text := Ok (base ++ href).

(** ** Spec-side views of the listing table *)

Definition row_tds (tr : node) : list node := find_all_children (cps "td") tr.

Definition row_cell (k : nat) (tr : node) : node := nth k (row_tds tr) (TextNode []).

(** A direct row the claims call retained: 4+ direct cells and a hyperlink
    in the third. *)
Definition row_retained (tr : node) : bool :=
  (4 <=? List.length (row_tds tr))%nat &&
  match find_a_href (row_cell 2 tr) with Some _ => true | None => false end.

Definition table_rows (doc : list node) : list node :=
  match select_list_table doc with
  | Some tb => find_all_children (cps "tr") tb
  | None => []
  end.

Definition retained_rows (doc : list node) : list node :=
  filter row_retained (table_rows doc).

(** The unresolved detail-page URL of a row. *)
Definition row_detail_url (urljoin : text -> text -> res text) (tr : node) : option text :=
  match find_a_href (row_cell 2 tr) with
  | Some a => match urljoin BASE_URL (strip (href_of a)) with
              | Ok u => Some u
              | Exc _ => None
              end
  | None => None
  end.

(** The record built from a row, apart from its [url]. *)
Definition row_record_ok (urljoin : text -> text -> res text) (now : datetime)
    (tr : node) (r : AnimeInfo) : Prop :=
  exists a,
    find_a_href (row_cell 2 tr) = Some a /\
    row_detail_url urljoin tr <> None /\
    parse_cn_time (clean_text (get_text (row_cell 0 tr))) now = Ok (date r) /\
    title r = clean_text (get_text a) /\
    size r = guess_size (clean_text (get_text (row_cell 3 tr))) /\
    quality r = guess_quality (title r) /\
    source r = cps "comicat.org".

(** The arguments [datetime(y, mo, d, hh, mm)] accepts. *)
Definition dt_args_ok (y mo d hh mm : Z) : Prop :=
  1 <= y <= 9999 /\ 1 <= mo <= 12 /\ 1 <= d <= days_in_month y mo /\
  0 <= hh <= 23 /\ 0 <= mm <= 59.

(** A row that [_parse_today_table] skips, or whose date cell parses. *)
Definition row_date_ok (now : datetime) (tr : node) : bool :=
  (List.length (row_tds tr) <? 4)%nat ||
  match parse_cn_time (clean_text (get_text (row_cell 0 tr))) now with
  | Ok _ => true
  | Exc _ => false
  end.

(** A row whose link [urljoin] accepts. *)
Definition row_join_ok (urljoin : text -> text -> res text) (tr : node) : bool :=
  match row_detail_url urljoin tr with Some _ => true | None => false end.

(** ** Sample pages *)

(** A detail page whose only hyperlink is a magnet link, answered with
    status 200 for every URL. *)
Definition sample_magnet : text := magnet_prefix ++ cps "0123abcd".
Definition detail_serve (u : text) : http_outcome := Response 200 (cps "<a href>").
Definition detail_dom (body : text) : list node :=
  [Elem (cps "a") [(cps "href", sample_magnet)] [TextNode (cps "magnet")]].
Definition detail_client : client := mkclient true detail_serve.

(** Row [k] of a listing: released today at 21:41, detail page "show-k.html". *)
Definition numbered_row (k : Z) : node :=
  listing_row (today_text 21 41) (cps "[Sub] Show 1080p") (cps "show-" ++ [digit k] ++ cps ".html")
    (cps "1.2 GB").

(** Five well-formed rows. *)
Definition five_rows_page : list node := listing_page (map numbered_row [1; 2; 3; 4; 5]).

(** Three rows: a short one, a well-formed one and one without a link. *)
Definition mixed_page : list node :=
  listing_page
    [Elem (cps "tr") [] [td (cps "x"); td (cps "y")];
     numbered_row 1;
     Elem (cps "tr") [] [td (today_text 8 12); td (cps "anime"); td (cps "no link"); td (cps "1 GB")]].

(** A row without a link whose date text reads "今天 25:00". *)
Definition bad_date_page : list node :=
  listing_page
    [Elem (cps "tr") [] [td (today_text 25 0); td (cps "anime"); td (cps "no link"); td (cps "1 GB")]].

(** A well-formed row whose title hyperlink text is two spaces. *)
Definition blank_title_page : list node :=
  listing_page [listing_row (today_text 21 41) (cps "  ") (cps "show-1.html") (cps "1.2 GB")].

(** The [res] value's list, [] on an exception. *)
Definition ok_list {A} (r : res (list A)) : list A :=
  match r with Ok l => l | Exc _ => [] end.

(** A record standing in for a missing list entry. *)
Definition no_info : AnimeInfo := mkinfo [] [] [] [] sample_now [].

(** A blocked body and an earlier real page. *)
Definition blocked_body : text := cps "<form id=visitor-test-form>Please complete the captcha</form>".
Definition real_page : text := cps "<table id=listTable><tbody id=data_list></tbody></table>".

(** The detail-page URL of [numbered_row k]. *)
Definition numbered_url (k : Z) : text := BASE_URL ++ cps "show-" ++ [digit k] ++ cps ".html".

(** ** Views for the further properties *)

(** Every white-space character of [t] is the plain space. *)
Definition only_plain_spaces (t : text) : Prop :=
  forall c, In c t -> is_space c = true -> c = 32.

(** No two adjacent white-space characters. *)
Definition no_double_space (t : text) : Prop :=
  forall pre c d post, t = pre ++ c :: d :: post -> ~ (is_space c = true /\ is_space d = true).

(** Neither the first nor the last character is white space. *)
Definition no_edge_space (t : text) : Prop :=
  (forall c r, t = c :: r -> is_space c = false) /\
  (forall c r, t = r ++ [c] -> is_space c = false).

(** ** Generic lemmas *)

Lemma fold_refl_prefix : forall p x, ci_prefix p (p ++ x) = true.
Proof.
  induction p as [|c p IH]; intros x; simpl; [reflexivity|].
  rewrite Z.eqb_refl, IH; reflexivity.
Qed.

Lemma find_some_prop {A} (p : A -> bool) l x : find p l = Some x -> p x = true.
Proof.
  induction l as [|y l IH]; simpl; [discriminate|].
  destruct (p y) eqn:E; [intros H; inversion H; subst; exact E | exact IH].
Qed.

Lemma re_search_app_some : forall m pre suf n,
  m suf = Some n -> exists g, re_search m (pre ++ suf) = Some g.
Proof.
  intros m pre; induction pre as [|c pre IH]; intros suf n H; simpl.
  - destruct suf; simpl; rewrite H; eauto.
  - destruct (m (c :: pre ++ suf)); eauto.
Qed.

Lemma re_search_firstn : forall m t g,
  re_search m t = Some g -> exists pre suf n, t = pre ++ suf /\ m suf = Some n /\ g = firstn n suf.
Proof.
  intros m t; induction t as [|c t IH]; intros g H; simpl in H.
  - destruct (m []) eqn:E; [|discriminate].
    inversion H; subst; exists [], [], n; auto.
  - destruct (m (c :: t)) eqn:E.
    + inversion H; subst; exists [], (c :: t), n; auto.
    + destruct (IH g H) as (pre & suf & n & -> & Hm & ->).
      exists (c :: pre), suf, n; auto.
Qed.

(** ** [_guess_size] *)

Lemma size_match_head : forall suf n,
  size_match_at suf = Some n ->
  exists c r, suf = c :: r /\ is_digit c = true /\ (1 <= n)%nat.
Proof.
  intros suf n; unfold size_match_at.
  destruct suf as [|c r]; simpl; [discriminate|].
  destruct (is_digit c) eqn:E; simpl; [|discriminate].
  match goal with |- match ?x with Some _ => _ | None => _ end = _ -> _ => destruct x end; [|discriminate].
  intros H; inversion H; subst; exists c, r; repeat split; auto; lia.
Qed.

Lemma size_search_head : forall t g,
  re_search size_match_at t = Some g -> exists c r, g = c :: r /\ is_digit c = true.
Proof.
  intros t g H.
  destruct (re_search_firstn _ _ _ H) as (pre & suf & n & _ & Hm & ->).
  destruct (size_match_head _ _ Hm) as (c & r & -> & Hc & Hn).
  destruct n as [|n]; [lia|]; simpl; eauto.
Qed.

Lemma size_sentinel_no_token : re_search size_match_at size_sentinel = None.
Proof. reflexivity. Qed.

Lemma size_sentinel_not_digit : is_digit WEI = false.
Proof. reflexivity. Qed.

(** C10 (counterexample): the sentinel is not returned exactly for the empty
    input; the non-empty input "未知大小" has no size token and comes back
    unchanged, i.e. as the sentinel. *)
Lemma guess_size_sentinel_not_only_empty :
  ~ (forall t, guess_size t = size_sentinel <-> t = []).
Proof.
  intros H.
  assert (E : guess_size size_sentinel = size_sentinel) by reflexivity.
  apply H in E; discriminate E.
Qed.

(** C10 (amended): [_guess_size] returns the sentinel "未知大小" for the empty
    input; a non-empty input without size token comes back unchanged; an
    input with a size token yields the first match.  Hence the result is the
    sentinel exactly when the input is empty or is the sentinel text itself. *)
Theorem guess_size_spec :
  guess_size [] = size_sentinel /\
  (forall t, t <> [] -> re_search size_match_at t = None -> guess_size t = t) /\
  (forall t g, re_search size_match_at t = Some g -> guess_size t = g) /\
  (forall t, guess_size t = size_sentinel <-> t = [] \/ t = size_sentinel).
Proof.
  split; [reflexivity|].
  split; [intros t Hne Hs; unfold guess_size; rewrite Hs; destruct t; [congruence|reflexivity]|].
  split; [intros t g Hs; unfold guess_size; rewrite Hs; reflexivity|].
  intros t; split.
  - unfold guess_size; destruct (re_search size_match_at t) as [g|] eqn:Hs.
    + intros ->.
      destruct (size_search_head _ _ Hs) as (c & r & Hg & Hc).
      unfold size_sentinel in Hg; inversion Hg; subst.
      rewrite size_sentinel_not_digit in Hc; discriminate.
    + destruct t; [left; reflexivity | intros H; right; exact H].
  - intros [-> | ->]; reflexivity.
Qed.

(** Witness of [guess_size_spec] on "12 files" and "1.5 GiB x". *)
Lemma guess_size_spec_witness :
  guess_size (cps "12 files") = cps "12 files" /\ guess_size (cps "1.5 GiB x") = cps "1.5 GiB".
Proof.
  split.
  - apply (proj1 (proj2 guess_size_spec)); [discriminate | reflexivity].
  - apply (proj1 (proj2 (proj2 guess_size_spec))); reflexivity.
Defined.

(** ** [_guess_quality] *)

Lemma first_alt_prefix : forall alts a x,
  In a alts -> exists n, first_alt alts (a ++ x) = Some n.
Proof.
  induction alts as [|b alts IH]; intros a x Hin; [destruct Hin|].
  simpl; destruct (ci_prefix b (a ++ x)) eqn:E; [eauto|].
  destruct Hin as [-> | Hin]; [rewrite fold_refl_prefix in E; discriminate|].
  exact (IH a x Hin).
Qed.

(** C8: [_guess_quality] tries the 2160p/4K/UHD group, then the 1080p and
    encode group, then 720p, and returns the match of the first group that
    matches anywhere, else "unknown"; a text with "2160p" anywhere gets the
    first group's match whatever comes before it. *)
Theorem guess_quality_priority :
  (forall t g, re_search (first_alt quality_group_4k) t = Some g -> guess_quality t = g) /\
  (forall t g, re_search (first_alt quality_group_4k) t = None ->
     re_search (first_alt quality_group_1080) t = Some g -> guess_quality t = g) /\
  (forall t g, re_search (first_alt quality_group_4k) t = None ->
     re_search (first_alt quality_group_1080) t = None ->
     re_search (first_alt quality_group_720) t = Some g -> guess_quality t = g) /\
  (forall t, re_search (first_alt quality_group_4k) t = None ->
     re_search (first_alt quality_group_1080) t = None ->
     re_search (first_alt quality_group_720) t = None -> guess_quality t = cps "unknown") /\
  (forall pre post, exists g,
     re_search (first_alt quality_group_4k) (pre ++ cps "2160p" ++ post) = Some g /\
     guess_quality (pre ++ cps "2160p" ++ post) = g) /\
  guess_quality (cps "[Sub] 1080p BDRip x264 2160p") = cps "2160p".
Proof.
  assert (U : forall t, guess_quality t =
    match re_search (first_alt quality_group_4k) t with
    | Some g => g
    | None => match re_search (first_alt quality_group_1080) t with
              | Some g => g
              | None => match re_search (first_alt quality_group_720) t with
                        | Some g => g
                        | None => cps "unknown"
                        end
              end
    end) by reflexivity.
  split; [intros t g H; rewrite U, H; reflexivity|].
  split; [intros t g H1 H2; rewrite U, H1, H2; reflexivity|].
  split; [intros t g H1 H2 H3; rewrite U, H1, H2, H3; reflexivity|].
  split; [intros t H1 H2 H3; rewrite U, H1, H2, H3; reflexivity|].
  split; [|reflexivity].
  intros pre post.
  destruct (first_alt_prefix quality_group_4k (cps "2160p") post) as [n Hn];
    [simpl; auto|].
  destruct (re_search_app_some _ pre _ _ Hn) as [g Hg].
  exists g; split; [exact Hg|].
  rewrite U, Hg; reflexivity.
Qed.

(** Witness of [guess_quality_priority] on "WEB-DL 720p". *)
Lemma guess_quality_priority_witness :
  guess_quality (cps "WEB-DL 720p") = cps "WEB-DL".
Proof.
  apply (proj1 (proj2 guess_quality_priority)); reflexivity.
Defined.

(** ** [_fetch_detail_link] *)

(** C7: [_fetch_detail_link] cannot raise (it returns a plain string); on a
    200 answer it gives the first [href] (stripped, document order) starting
    with "magnet:?xt=urn:btih:", else the first ending in ".torrent" or
    containing "download" (case-insensitively); on a network error, a closed
    client, another status, or no such link it gives [url] unchanged. *)
Theorem fetch_detail_link_spec : forall parse_lxml c u,
  fst (fetch_detail_link parse_lxml c u) =
  match fst (client_get c u) with
  | Ok (status, body) =>
      if status =? 200 then
        let hrefs := map (fun a => strip (href_of a)) (all_a_href (parse_lxml body)) in
        match find (starts_with magnet_prefix) hrefs with
        | Some h => h
        | None => match find is_download_href hrefs with Some h => h | None => u end
        end
      else u
  | Exc _ => u
  end.
Proof.
  intros parse_lxml c u.
  unfold fetch_detail_link, extract_magnet_from_detail.
  destruct (client_get c u) as [r ev]; cbn [fst].
  destruct r as [[s b]|e]; [|reflexivity].
  cbv beta iota.
  destruct (s =? 200); [|reflexivity].
  set (hs := map _ _).
  destruct (find (starts_with magnet_prefix) hs) as [h|] eqn:E1.
  - apply find_some_prop in E1; destruct h; [discriminate E1 | reflexivity].
  - destruct (find is_download_href hs) as [h|] eqn:E2; [|reflexivity].
    apply find_some_prop in E2; destruct h; [discriminate E2 | reflexivity].
Qed.

(** ** [_parse_cn_time] *)

Lemma digit_cases : forall k, 0 <= k <= 9 ->
  k = 0 \/ k = 1 \/ k = 2 \/ k = 3 \/ k = 4 \/ k = 5 \/ k = 6 \/ k = 7 \/ k = 8 \/ k = 9.
Proof. intros; lia. Qed.

Ltac by_digit_cases k :=
  let H := fresh in
  intros H; destruct (digit_cases k H) as [->|[->|[->|[->|[->|[->|[->|[->|[->| ->]]]]]]]]];
  reflexivity.

Lemma digit_value_digit : forall k, 0 <= k <= 9 -> digit_value (digit k) = Some k.
Proof. intros k; by_digit_cases k. Qed.

Lemma is_digit_digit : forall k, 0 <= k <= 9 -> is_digit (digit k) = true.
Proof. intros k; by_digit_cases k. Qed.

Lemma is_space_digit : forall k, 0 <= k <= 9 -> is_space (digit k) = false.
Proof. intros k; by_digit_cases k. Qed.

Lemma div_mod_10 : forall n, 0 <= n <= 99 -> 0 <= n / 10 <= 9 /\ 0 <= n mod 10 <= 9.
Proof.
  intros n Hn; split.
  - assert (n / 10 < 10) by (apply Z.div_lt_upper_bound; lia).
    assert (0 <= n / 10) by (apply Z.div_pos; lia); lia.
  - pose proof (Z.mod_pos_bound n 10); lia.
Qed.

Lemma fold_two_digits : forall acc n, 0 <= n <= 99 ->
  fold_left digit_step (two_digits n) acc = acc * 100 + n.
Proof.
  intros acc n Hn; destruct (div_mod_10 n Hn) as [Ha Hb].
  unfold two_digits, digit_step; simpl.
  rewrite (digit_value_digit _ Ha), (digit_value_digit _ Hb).
  rewrite (Z.div_mod n 10) at 3 by lia; lia.
Qed.

Lemma int_of_two_digits : forall n, 0 <= n <= 99 -> int_of_digits (two_digits n) = n.
Proof. intros n Hn; unfold int_of_digits; rewrite fold_two_digits; lia. Qed.

Lemma int_of_four_digits : forall y, 0 <= y <= 9999 ->
  int_of_digits (two_digits (y / 100) ++ two_digits (y mod 100)) = y.
Proof.
  intros y Hy; unfold int_of_digits; rewrite fold_left_app.
  assert (0 <= y / 100 <= 99).
  { assert (y / 100 < 100) by (apply Z.div_lt_upper_bound; lia).
    assert (0 <= y / 100) by (apply Z.div_pos; lia); lia. }
  assert (0 <= y mod 100 <= 99) by (pose proof (Z.mod_pos_bound y 100); lia).
  rewrite !fold_two_digits by lia.
  rewrite (Z.div_mod y 100) at 3 by lia; lia.
Qed.

Lemma strip_no_edge : forall c1 t cn,
  is_space c1 = false -> is_space cn = false -> strip (c1 :: t ++ [cn]) = c1 :: t ++ [cn].
Proof.
  intros c1 t cn H1 Hn; unfold strip; simpl; rewrite H1.
  rewrite app_comm_cons, rev_unit; simpl; rewrite Hn.
  change (cn :: rev t ++ [c1]) with (cn :: rev (c1 :: t)).
  change (cn :: rev (c1 :: t)) with ([cn] ++ rev (c1 :: t)).
  rewrite rev_app_distr, rev_involutive; reflexivity.
Qed.

Lemma match_hhmm_two : forall hh mm, 0 <= hh <= 99 -> 0 <= mm <= 99 ->
  match_hhmm (two_digits hh ++ [58] ++ two_digits mm) = Some (two_digits hh, two_digits mm).
Proof.
  intros hh mm Hh Hm.
  destruct (div_mod_10 hh Hh) as [Ha Hb]; destruct (div_mod_10 mm Hm) as [Hc Hd].
  unfold match_hhmm, two_digits; cbn [digits_upto app].
  rewrite (is_digit_digit _ Ha), (is_digit_digit _ Hb), (is_digit_digit _ Hc),
    (is_digit_digit _ Hd).
  reflexivity.
Qed.

Lemma two_digits_shape : forall n, 0 <= n <= 99 ->
  exists a b, two_digits n = [digit a; digit b] /\ 0 <= a <= 9 /\ 0 <= b <= 9.
Proof.
  intros n Hn; destruct (div_mod_10 n Hn); exists (n / 10), (n mod 10); auto.
Qed.

Lemma match_day_time_word : forall w hh mm, (w = JIN \/ w = ZUO) ->
  0 <= hh <= 99 -> 0 <= mm <= 99 ->
  match_day_time ([w; TIAN; 32] ++ two_digits hh ++ [58] ++ two_digits mm)
  = Some (w =? JIN, two_digits hh, two_digits mm).
Proof.
  intros w hh mm Hw Hh Hm.
  destruct (two_digits_shape hh Hh) as (a & b & Eh & Ha & Hb).
  unfold match_day_time, spaces1; cbn [app].
  replace ((w =? JIN) && (TIAN =? TIAN) || (w =? ZUO) && (TIAN =? TIAN)) with true
    by (destruct Hw as [-> | ->]; reflexivity).
  replace (is_space 32) with true by reflexivity.
  rewrite Eh; cbn [lstrip app]; rewrite (is_space_digit _ Ha).
  replace (is_space 32) with true by reflexivity.
  change (digit a :: digit b :: 58 :: two_digits mm) with ([digit a; digit b] ++ [58] ++ two_digits mm).
  rewrite <- Eh.
  rewrite match_hhmm_two by assumption.
  rewrite Z.eqb_refl, andb_true_r; reflexivity.
Qed.

Lemma strip_two_digits_end : forall c1 x mm, is_space c1 = false -> 0 <= mm <= 99 ->
  strip (c1 :: x ++ two_digits mm) = c1 :: x ++ two_digits mm.
Proof.
  intros c1 x mm H1 Hm.
  destruct (two_digits_shape mm Hm) as (a & b & -> & Ha & Hb).
  change [digit a; digit b] with ([digit a] ++ [digit b]).
  rewrite app_assoc; apply strip_no_edge; [exact H1 | apply is_space_digit; exact Hb].
Qed.

Lemma match_abs_two : forall y mo d hh mm, 0 <= y <= 9999 ->
  0 <= mo <= 99 -> 0 <= d <= 99 -> 0 <= hh <= 99 -> 0 <= mm <= 99 ->
  match_abs_time (abs_text y mo d hh mm)
  = Some (two_digits (y / 100) ++ two_digits (y mod 100), two_digits mo, two_digits d,
          two_digits hh, two_digits mm).
Proof.
  intros y mo d hh mm Hy Hmo Hd Hh Hm.
  assert (Hy1 : 0 <= y / 100 <= 99).
  { assert (y / 100 < 100) by (apply Z.div_lt_upper_bound; lia).
    assert (0 <= y / 100) by (apply Z.div_pos; lia); lia. }
  assert (Hy2 : 0 <= y mod 100 <= 99) by (pose proof (Z.mod_pos_bound y 100); lia).
  destruct (two_digits_shape _ Hy1) as (a1 & b1 & E1 & Ha1 & Hb1).
  destruct (two_digits_shape _ Hy2) as (a2 & b2 & E2 & Ha2 & Hb2).
  destruct (two_digits_shape _ Hmo) as (a3 & b3 & E3 & Ha3 & Hb3).
  destruct (two_digits_shape _ Hd) as (a4 & b4 & E4 & Ha4 & Hb4).
  unfold match_abs_time, abs_text; rewrite E1, E2, E3, E4.
  cbn [app digits_upto].
  rewrite (is_digit_digit _ Ha1), (is_digit_digit _ Hb1), (is_digit_digit _ Ha2),
    (is_digit_digit _ Hb2), (is_digit_digit _ Ha3), (is_digit_digit _ Hb3),
    (is_digit_digit _ Ha4), (is_digit_digit _ Hb4).
  replace (is_digit 45) with false by reflexivity.
  replace (is_digit 32) with false by reflexivity.
  cbn -[is_space two_digits match_hhmm digit].
  replace (is_space 32) with true by reflexivity.
  destruct (two_digits_shape _ Hh) as (a5 & b5 & E5 & Ha5 & Hb5).
  rewrite E5; cbn [app lstrip].
  rewrite (is_space_digit _ Ha5).
  change (digit a5 :: digit b5 :: 58 :: two_digits mm) with ([digit a5; digit b5] ++ [58] ++ two_digits mm).
  rewrite <- E5, match_hhmm_two by assumption.
  rewrite E5; reflexivity.
Qed.

(** Arguments the [datetime] constructor accepts. *)
Lemma leb_range_true : forall a x b, a <= x <= b -> (a <=? x) && (x <=? b) = true.
Proof. intros; apply andb_true_intro; split; apply Z.leb_le; lia. Qed.

Lemma mk_datetime_ok : forall y mo d hh mm tz,
  dt_args_ok y mo d hh mm -> mk_datetime y mo d hh mm tz = Ok (mkdt y mo d hh mm 0 0 tz).
Proof.
  intros y mo d hh mm tz (Hy & Hmo & Hd & Hh & Hm); unfold mk_datetime.
  rewrite !leb_range_true by assumption; reflexivity.
Qed.

Lemma mk_datetime_exc : forall y mo d hh mm tz,
  ~ dt_args_ok y mo d hh mm -> exists e, mk_datetime y mo d hh mm tz = Exc e.
Proof.
  intros y mo d hh mm tz H; unfold mk_datetime.
  destruct ((1 <=? y) && (y <=? 9999)) eqn:E1; simpl; [|eauto].
  destruct ((1 <=? mo) && (mo <=? 12)) eqn:E2; simpl; [|eauto].
  destruct ((1 <=? d) && (d <=? days_in_month y mo)) eqn:E3; simpl; [|eauto].
  destruct ((0 <=? hh) && (hh <=? 23)) eqn:E4; simpl; [|eauto].
  destruct ((0 <=? mm) && (mm <=? 59)) eqn:E5; simpl; [|eauto].
  exfalso; apply H.
  apply andb_true_iff in E1, E2, E3, E4, E5.
  destruct E1 as [E1 E1']; destruct E2 as [E2 E2']; destruct E3 as [E3 E3'];
  destruct E4 as [E4 E4']; destruct E5 as [E5 E5'].
  apply Z.leb_le in E1, E1', E2, E2', E3, E3', E4, E4', E5, E5'.
  repeat split; assumption.
Qed.

Lemma mk_datetime_value_error : forall y mo d hh mm tz,
  ~ dt_args_ok y mo d hh mm -> exists m, mk_datetime y mo d hh mm tz = Exc (ValueError m).
Proof.
  intros y mo d hh mm tz H.
  destruct (mk_datetime_exc y mo d hh mm tz H) as [e He].
  revert He; unfold mk_datetime.
  destruct ((1 <=? y) && (y <=? 9999)); simpl; [|intros He; injection He as <-; eauto].
  destruct ((1 <=? mo) && (mo <=? 12)); simpl; [|intros He; injection He as <-; eauto].
  destruct ((1 <=? d) && (d <=? days_in_month y mo)); simpl; [|intros He; injection He as <-; eauto].
  destruct ((0 <=? hh) && (hh <=? 23)); simpl; [|intros He; injection He as <-; eauto].
  destruct ((0 <=? mm) && (mm <=? 59)); simpl; [discriminate|intros He; injection He as <-; eauto].
Qed.

Lemma prev_date_ok : forall y m d,
  1 <= y -> 1 <= m -> 1 <= d -> (y, m, d) <> (1, 1, 1) -> exists p, prev_date (y, m, d) = Ok p.
Proof.
  intros y m d Hy Hm Hd Hne; unfold prev_date.
  destruct (1 <? d) eqn:E1; [eauto|].
  destruct (1 <? m) eqn:E2; [eauto|].
  destruct (1 <? y) eqn:E3; [eauto|].
  apply Z.ltb_ge in E1, E2, E3.
  exfalso; apply Hne; f_equal; [f_equal|]; lia.
Qed.

Lemma days_in_month_bounds : forall y m, 28 <= days_in_month y m <= 31.
Proof.
  intros y m; unfold days_in_month.
  destruct (m =? 2); [destruct (is_leap y); lia|].
  destruct ((m =? 4) || (m =? 6) || (m =? 9) || (m =? 11)); lia.
Qed.

Lemma prev_date_valid : forall y m d y' m' d',
  1 <= y <= 9999 -> 1 <= m <= 12 -> 1 <= d <= days_in_month y m ->
  prev_date (y, m, d) = Ok (y', m', d') ->
  1 <= y' <= 9999 /\ 1 <= m' <= 12 /\ 1 <= d' <= days_in_month y' m'.
Proof.
  intros y m d y' m' d' Hy Hm Hd; unfold prev_date.
  destruct (1 <? d) eqn:E1; [intros H; injection H as <- <- <-; apply Z.ltb_lt in E1; lia|].
  destruct (1 <? m) eqn:E2.
  - intros H; injection H as <- <- <-; apply Z.ltb_lt in E2.
    pose proof (days_in_month_bounds y (m - 1)); lia.
  - destruct (1 <? y) eqn:E3; [|discriminate].
    intros H; injection H as <- <- <-; apply Z.ltb_lt in E3.
    replace (days_in_month (y - 1) 12) with 31 by reflexivity; lia.
Qed.

Lemma today_text_strip : forall w hh mm, 0 <= hh <= 99 -> 0 <= mm <= 99 ->
  is_space w = false ->
  strip ([w; TIAN; 32] ++ two_digits hh ++ [58] ++ two_digits mm)
  = [w; TIAN; 32] ++ two_digits hh ++ [58] ++ two_digits mm.
Proof.
  intros w hh mm Hh Hm Hw.
  change ([w; TIAN; 32] ++ two_digits hh ++ [58] ++ two_digits mm)
    with (w :: ([TIAN; 32] ++ two_digits hh ++ [58]) ++ two_digits mm)
    at 1.
  - rewrite strip_two_digits_end by assumption.
    rewrite <- !app_assoc; reflexivity.
Qed.

Lemma parse_day_word : forall w now hh mm, (w = JIN \/ w = ZUO) ->
  0 <= hh <= 99 -> 0 <= mm <= 99 ->
  parse_cn_time ([w; TIAN; 32] ++ two_digits hh ++ [58] ++ two_digits mm) now =
  (base <- (if w =? JIN then Ok (date_of now) else prev_date (date_of now)) ;;
   let '(y, m, d) := base in mk_datetime y m d hh mm Taipei).
Proof.
  intros w now hh mm Hw Hh Hm.
  unfold parse_cn_time.
  rewrite today_text_strip by (try assumption; destruct Hw as [-> | ->]; reflexivity).
  rewrite match_day_time_word by assumption.
  rewrite !int_of_two_digits by assumption.
  reflexivity.
Qed.

Lemma parse_abs : forall now y mo d hh mm, 0 <= y <= 9999 ->
  0 <= mo <= 99 -> 0 <= d <= 99 -> 0 <= hh <= 99 -> 0 <= mm <= 99 ->
  parse_cn_time (abs_text y mo d hh mm) now = mk_datetime y mo d hh mm Taipei.
Proof.
  intros now y mo d hh mm Hy Hmo Hd Hh Hm.
  assert (Hy1 : 0 <= y / 100 <= 99).
  { assert (y / 100 < 100) by (apply Z.div_lt_upper_bound; lia).
    assert (0 <= y / 100) by (apply Z.div_pos; lia); lia. }
  destruct (two_digits_shape _ Hy1) as (a1 & b1 & E1 & Ha1 & Hb1).
  unfold parse_cn_time.
  assert (S : strip (abs_text y mo d hh mm) = abs_text y mo d hh mm).
  { unfold abs_text; rewrite E1.
    change ([digit a1; digit b1] ++ ?r) with (digit a1 :: ([digit b1] ++ r)).
    rewrite !app_assoc.
    rewrite strip_two_digits_end by (try apply is_space_digit; assumption).
    reflexivity. }
  rewrite S.
  replace (match_day_time (abs_text y mo d hh mm)) with (@None (bool * text * text)).
  2:{ unfold abs_text, match_day_time; rewrite E1; cbn [app].
       replace (digit a1 =? JIN) with false
         by (symmetry; apply Z.eqb_neq; unfold digit, JIN; lia).
       replace (digit a1 =? ZUO) with false
         by (symmetry; apply Z.eqb_neq; unfold digit, ZUO; lia).
       reflexivity. }
  rewrite match_abs_two by assumption.
  rewrite int_of_four_digits, !int_of_two_digits by assumption.
  reflexivity.
Qed.

(** C6 (counterexample): "今天 25:00" has the "今天 HH:MM" shape but no
    valid hour; [_parse_cn_time] raises [ValueError] instead of returning a
    date-time (in particular instead of falling back to [now]). *)
Lemma parse_cn_time_out_of_range_raises :
  parse_cn_time (today_text 25 0) sample_now = Exc (ValueError "hour must be in 0..23") /\
  forall x, parse_cn_time (today_text 25 0) sample_now <> Ok x.
Proof. split; [reflexivity | intros x; discriminate]. Qed.

(** C6 (amended): for a valid [now], "今天 HH:MM" gives [now]'s date at
    HH:MM, "昨天 HH:MM" the day before [now]'s date at HH:MM (raising
    [OverflowError] before 0001-01-01), "YYYY-MM-DD HH:MM" that date-time,
    all in the Asia/Taipei zone, when the numbers form a valid date-time;
    a text of one of these shapes whose numbers do not raises [ValueError]
    instead, except that "昨天 HH:MM" raises [OverflowError] whatever its
    numbers when [now]'s date is 0001-01-01; any other text gives [now]
    itself, unchanged (with [now]'s own zone).  The spec's examples hold. *)
Theorem parse_cn_time_spec :
  (forall now hh mm, valid_datetime now -> 0 <= hh <= 23 -> 0 <= mm <= 59 ->
     parse_cn_time (today_text hh mm) now
     = Ok (mkdt (dt_year now) (dt_month now) (dt_day now) hh mm 0 0 Taipei)) /\
  (forall now hh mm, valid_datetime now -> 0 <= hh <= 23 -> 0 <= mm <= 59 ->
     parse_cn_time (yesterday_text hh mm) now
     = match prev_date (date_of now) with
       | Ok (y, m, d) => Ok (mkdt y m d hh mm 0 0 Taipei)
       | Exc e => Exc e
       end) /\
  (forall now y mo d hh mm, 0 <= y <= 9999 -> 0 <= mo <= 99 -> 0 <= d <= 99 ->
     0 <= hh <= 99 -> 0 <= mm <= 99 -> dt_args_ok y mo d hh mm ->
     parse_cn_time (abs_text y mo d hh mm) now = Ok (mkdt y mo d hh mm 0 0 Taipei)) /\
  (forall now hh mm, valid_datetime now -> 0 <= hh <= 99 -> 0 <= mm <= 99 ->
     ~ (hh <= 23 /\ mm <= 59) ->
     (exists m, parse_cn_time (today_text hh mm) now = Exc (ValueError m)) /\
     (date_of now <> (1, 1, 1) ->
        exists m, parse_cn_time (yesterday_text hh mm) now = Exc (ValueError m))) /\
  (forall now hh mm, 0 <= hh <= 99 -> 0 <= mm <= 99 -> date_of now = (1, 1, 1) ->
     parse_cn_time (yesterday_text hh mm) now = Exc (OverflowError "date value out of range")) /\
  (forall now y mo d hh mm, 0 <= y <= 9999 -> 0 <= mo <= 99 -> 0 <= d <= 99 ->
     0 <= hh <= 99 -> 0 <= mm <= 99 -> ~ dt_args_ok y mo d hh mm ->
     exists m, parse_cn_time (abs_text y mo d hh mm) now = Exc (ValueError m)) /\
  (forall t now, match_day_time (strip t) = None -> match_abs_time (strip t) = None ->
     parse_cn_time t now = Ok now) /\
  parse_cn_time (today_text 21 41) sample_now = Ok (mkdt 2025 10 26 21 41 0 0 Taipei) /\
  parse_cn_time (yesterday_text 8 12) sample_now = Ok (mkdt 2025 10 25 8 12 0 0 Taipei) /\
  (forall now, parse_cn_time (cps "not a date") now = Ok now).
Proof.
  split.
  { intros now hh mm Hv Hh Hm.
    unfold today_text; rewrite parse_day_word by (auto; lia).
    destruct Hv as (Hy & Hmo & Hd & _).
    apply mk_datetime_ok; repeat split; lia. }
  split.
  { intros now hh mm Hv Hh Hm.
    unfold yesterday_text; rewrite parse_day_word by (auto; lia).
    destruct Hv as (Hy & Hmo & Hd & _).
    replace (ZUO =? JIN) with false by reflexivity.
    destruct (prev_date (date_of now)) as [[[y m] d]|e] eqn:E; [|reflexivity].
    destruct (prev_date_valid _ _ _ _ _ _ Hy Hmo Hd E) as (Hy' & Hm' & Hd').
    apply mk_datetime_ok; repeat split; lia. }
  split.
  { intros now y mo d hh mm Hy Hmo Hd Hh Hm Hok.
    rewrite parse_abs by assumption; apply mk_datetime_ok; exact Hok. }
  split.
  { intros now hh mm Hv Hh Hm Hbad.
    destruct Hv as (Hy & Hmo & Hd & _).
    assert (Hn : forall y m d, ~ dt_args_ok y m d hh mm)
      by (intros y m d (_ & _ & _ & H1 & H2); lia).
    split.
    - unfold today_text; rewrite parse_day_word by (auto; lia).
      replace (JIN =? JIN) with true by reflexivity; cbn [bind].
      destruct (date_of now) as [[y m] d].
      apply mk_datetime_value_error, Hn.
    - intros Hne.
      unfold yesterday_text; rewrite parse_day_word by (auto; lia).
      replace (ZUO =? JIN) with false by reflexivity.
      unfold date_of in Hne |- *.
      destruct (prev_date_ok (dt_year now) (dt_month now) (dt_day now)) as [[[y m] d] E];
        [lia | lia | lia | exact Hne |].
      rewrite E; cbn [bind]; apply mk_datetime_value_error, Hn. }
  split.
  { intros now hh mm Hh Hm H1.
    unfold yesterday_text; rewrite parse_day_word by (auto; lia).
    replace (ZUO =? JIN) with false by reflexivity.
    rewrite H1; reflexivity. }
  split.
  { intros now y mo d hh mm Hy Hmo Hd Hh Hm Hbad.
    rewrite parse_abs by assumption; apply mk_datetime_value_error; exact Hbad. }
  split.
  { intros t now H1 H2; unfold parse_cn_time; cbv zeta; rewrite H1, H2; reflexivity. }
  split; [reflexivity|].
  split; [reflexivity|].
  intros now; reflexivity.
Qed.

(** Witness of [parse_cn_time_spec] at "今天 21:41", "昨天 00:05",
    "2024-02-29 23:59", "今天 12:60" and "2023-02-29 10:00". *)
Lemma parse_cn_time_spec_witness :
  parse_cn_time (today_text 21 41) sample_now = Ok (mkdt 2025 10 26 21 41 0 0 Taipei) /\
  parse_cn_time (yesterday_text 0 5) (mkdt 2024 3 1 1 0 0 0 Taipei)
    = Ok (mkdt 2024 2 29 0 5 0 0 Taipei) /\
  parse_cn_time (abs_text 2024 2 29 23 59) sample_now = Ok (mkdt 2024 2 29 23 59 0 0 Taipei) /\
  (exists m, parse_cn_time (today_text 12 60) sample_now = Exc (ValueError m)) /\
  (exists m, parse_cn_time (yesterday_text 25 0) sample_now = Exc (ValueError m)) /\
  parse_cn_time (yesterday_text 25 0) (mkdt 1 1 1 9 0 0 0 Taipei)
    = Exc (OverflowError "date value out of range") /\
  (exists m, parse_cn_time (abs_text 2023 2 29 10 0) sample_now = Exc (ValueError m)) /\
  parse_cn_time (cps "n/a") sample_now = Ok sample_now.
Proof.
  destruct parse_cn_time_spec as (Ht & Hy & Ha & Hr & Hy1 & Hra & Hf & _).
  assert (Vn : valid_datetime sample_now) by (unfold valid_datetime, days_in_month, is_leap; simpl; lia).
  split; [apply (Ht sample_now 21 41); [exact Vn | lia | lia]|].
  split; [rewrite (Hy (mkdt 2024 3 1 1 0 0 0 Taipei)); [reflexivity | unfold valid_datetime, days_in_month, is_leap; simpl; lia | lia | lia]|].
  split; [apply (Ha sample_now 2024 2 29 23 59); [lia | lia | lia | lia | lia | unfold dt_args_ok, days_in_month, is_leap; simpl; lia]|].
  split; [apply (proj1 (Hr sample_now 12 60 Vn ltac:(lia) ltac:(lia) ltac:(lia)))|].
  split; [apply (proj2 (Hr sample_now 25 0 Vn ltac:(lia) ltac:(lia) ltac:(lia))); discriminate|].
  split; [apply (Hy1 (mkdt 1 1 1 9 0 0 0 Taipei) 25 0); [lia | lia | reflexivity]|].
  split; [apply (Hra sample_now 2023 2 29 10 0); [lia | lia | lia | lia | lia | unfold dt_args_ok, days_in_month, is_leap; simpl; lia]|].
  apply Hf; reflexivity.
Defined.

Lemma parse_rows_records : forall parse_lxml urljoin rows cl k now count l evs,
  parse_rows parse_lxml urljoin rows cl k now count = (Ok l, evs) ->
  Forall2 (row_record_ok urljoin now) (filter row_retained rows) l.
Proof.
  intros parse_lxml urljoin rows; induction rows as [|tr rows IH];
    intros cl k now count l evs H; cbn [parse_rows] in H; cbv zeta in H.
  - inversion H; constructor.
  - cbn [filter]; unfold row_retained, row_cell, row_tds.
    destruct (List.length (find_all_children (cps "td") tr) <? 4)%nat eqn:E4.
    + apply Nat.ltb_lt in E4.
      replace (4 <=? List.length (find_all_children (cps "td") tr))%nat with false
        by (symmetry; apply Nat.leb_gt; lia).
      cbn [andb]; eapply IH; exact H.
    + apply Nat.ltb_ge in E4.
      replace (4 <=? List.length (find_all_children (cps "td") tr))%nat with true
        by (symmetry; apply Nat.leb_le; lia).
      destruct (parse_cn_time _ now) as [dt|e] eqn:Ed; [|discriminate H].
      destruct (find_a_href (nth 2 (find_all_children (cps "td") tr) (TextNode []))) as [a|] eqn:Ea;
        [|cbn [andb]; eapply IH; exact H].
      destruct (urljoin BASE_URL (strip (href_of a))) as [du|e] eqn:Eu; [|discriminate H].
      cbn [andb].
      destruct (resolve_url parse_lxml cl k count du) as [[fu c'] ev0].
      destruct (parse_rows parse_lxml urljoin rows cl k now c') as [r evs'] eqn:Er.
      destruct r as [l'|e]; simpl in H; [|discriminate H].
      inversion H; subst; clear H.
      constructor; [|eapply IH; exact Er].
      exists a; repeat split; auto.
      unfold row_detail_url, row_cell, row_tds; rewrite Ea, Eu; discriminate.
Qed.

Lemma parse_rows_urls : forall parse_lxml urljoin rows c k now count l evs,
  parse_rows parse_lxml urljoin rows (Some c) k now count = (Ok l, evs) ->
  forall i r tr, nth_error l i = Some r -> nth_error (filter row_retained rows) i = Some tr ->
  exists du, row_detail_url urljoin tr = Some du /\
    url r = if count + Z.of_nat i <? k then fst (fetch_detail_link parse_lxml c du) else du.
Proof.
  intros parse_lxml urljoin rows; induction rows as [|tr0 rows IH];
    intros c k now count l evs H; cbn [parse_rows] in H; cbv zeta in H.
  - inversion H; subst; intros i r tr Hr; destruct i; discriminate Hr.
  - cbn [filter]; unfold row_retained, row_cell, row_tds.
    destruct (List.length (find_all_children (cps "td") tr0) <? 4)%nat eqn:E4.
    + apply Nat.ltb_lt in E4.
      replace (4 <=? List.length (find_all_children (cps "td") tr0))%nat with false
        by (symmetry; apply Nat.leb_gt; lia).
      cbn [andb]; eapply IH; exact H.
    + apply Nat.ltb_ge in E4.
      replace (4 <=? List.length (find_all_children (cps "td") tr0))%nat with true
        by (symmetry; apply Nat.leb_le; lia).
      destruct (parse_cn_time _ now) as [dt|e] eqn:Ed; [|discriminate H].
      destruct (find_a_href (nth 2 (find_all_children (cps "td") tr0) (TextNode []))) as [a|] eqn:Ea;
        [|cbn [andb]; eapply IH; exact H].
      destruct (urljoin BASE_URL (strip (href_of a))) as [du|e] eqn:Eu; [|discriminate H].
      cbn [andb]; unfold resolve_url in H.
      destruct (count <? k) eqn:Ek.
      * destruct (fetch_detail_link parse_lxml c du) as [u ev] eqn:Ef.
        destruct (parse_rows parse_lxml urljoin rows (Some c) k now (count + 1)) as [r0 evs'] eqn:Er.
        destruct r0 as [l'|e]; simpl in H; [|discriminate H].
        inversion H; subst; clear H.
        intros [|i] r tr Hr Htr.
        -- inversion Hr; inversion Htr; subst; exists du; split.
           ++ unfold row_detail_url, row_cell, row_tds; rewrite Ea, Eu; reflexivity.
           ++ cbn [url Z.of_nat]; rewrite Z.add_0_r, Ek, Ef; reflexivity.
        -- destruct (IH _ _ _ _ _ _ Er i r tr Hr Htr) as (du' & Hdu & Hu).
           exists du'; split; [exact Hdu|].
           rewrite Hu; replace (count + 1 + Z.of_nat i) with (count + Z.of_nat (S i)) by lia.
           reflexivity.
      * destruct (parse_rows parse_lxml urljoin rows (Some c) k now count) as [r0 evs'] eqn:Er.
        destruct r0 as [l'|e]; simpl in H; [|discriminate H].
        inversion H; subst; clear H.
        apply Z.ltb_ge in Ek.
        intros [|i] r tr Hr Htr.
        -- inversion Hr; inversion Htr; subst; exists du; split.
           ++ unfold row_detail_url, row_cell, row_tds; rewrite Ea, Eu; reflexivity.
           ++ cbn [url Z.of_nat]; replace (count + 0 <? k) with false by (symmetry; apply Z.ltb_ge; lia).
              reflexivity.
        -- destruct (IH _ _ _ _ _ _ Er i r tr Hr Htr) as (du' & Hdu & Hu).
           exists du'; split; [exact Hdu|].
           rewrite Hu.
           replace (count + Z.of_nat i <? k) with false by (symmetry; apply Z.ltb_ge; lia).
           replace (count + Z.of_nat (S i) <? k) with false by (symmetry; apply Z.ltb_ge; lia).
           reflexivity.
Qed.

Lemma parse_rows_ok : forall parse_lxml urljoin rows cl k now count,
  (forall tr, In tr rows -> (4 <= List.length (row_tds tr))%nat ->
     exists dt, parse_cn_time (clean_text (get_text (row_cell 0 tr))) now = Ok dt) ->
  (forall tr, In tr rows -> row_retained tr = true -> row_detail_url urljoin tr <> None) ->
  exists l, fst (parse_rows parse_lxml urljoin rows cl k now count) = Ok l.
Proof.
  intros parse_lxml urljoin rows; induction rows as [|tr0 rows IH];
    intros cl k now count Hd Hu; cbn [parse_rows]; cbv zeta.
  1: (exists []; reflexivity).
  assert (Hd' : forall tr, In tr rows -> (4 <= List.length (row_tds tr))%nat ->
     exists dt, parse_cn_time (clean_text (get_text (row_cell 0 tr))) now = Ok dt)
    by (intros; apply Hd; simpl; auto).
  assert (Hu' : forall tr, In tr rows -> row_retained tr = true -> row_detail_url urljoin tr <> None)
    by (intros; apply Hu; simpl; auto).
  destruct (List.length (find_all_children (cps "td") tr0) <? 4)%nat eqn:E4; [eauto|].
  apply Nat.ltb_ge in E4.
  destruct (Hd tr0 (or_introl eq_refl) E4) as [dt Edt].
  unfold row_cell, row_tds in Edt; rewrite Edt.
  destruct (find_a_href (nth 2 (find_all_children (cps "td") tr0) (TextNode []))) as [a|] eqn:Ea;
    [|eauto].
  assert (Hr : row_retained tr0 = true).
  { unfold row_retained, row_cell, row_tds; rewrite Ea.
    apply andb_true_intro; split; [apply Nat.leb_le; exact E4 | reflexivity]. }
  specialize (Hu tr0 (or_introl eq_refl) Hr).
  unfold row_detail_url, row_cell, row_tds in Hu; rewrite Ea in Hu.
  destruct (urljoin BASE_URL (strip (href_of a))) as [du|e] eqn:Eu; [|congruence].
  destruct (resolve_url parse_lxml cl k count du) as [[fu c'] ev0].
  destruct (IH cl k now c' Hd' Hu') as [l' Hl'].
  destruct (parse_rows parse_lxml urljoin rows cl k now c') as [r0 evs'].
  simpl in Hl'; subst r0; simpl; eexists; reflexivity.
Qed.

Lemma first_alt_some : forall alts t n,
  first_alt alts t = Some n -> exists a, In a alts /\ n = List.length a /\ ci_prefix a t = true.
Proof.
  induction alts as [|a alts IH]; intros t n H; simpl in H; [discriminate|].
  destruct (ci_prefix a t) eqn:E.
  - inversion H; subst; exists a; simpl; auto.
  - destruct (IH t n H) as (b & Hb & -> & Hp); exists b; simpl; auto.
Qed.

Lemma ci_prefix_length : forall p t, ci_prefix p t = true -> (List.length p <= List.length t)%nat.
Proof.
  induction p as [|x p IH]; intros t H; simpl; [lia|].
  destruct t as [|y t]; [discriminate|].
  simpl in H; apply andb_true_iff in H; destruct H as [_ H].
  simpl; specialize (IH t H); lia.
Qed.

Lemma re_search_first_alt_nonempty : forall alts t g,
  (forall a, In a alts -> a <> []) -> re_search (first_alt alts) t = Some g -> g <> [].
Proof.
  intros alts t g Hne H.
  destruct (re_search_firstn _ _ _ H) as (pre & suf & n & _ & Hm & ->).
  destruct (first_alt_some _ _ _ Hm) as (a & Ha & -> & Hp).
  apply ci_prefix_length in Hp.
  specialize (Hne a Ha); destruct a as [|x a]; [congruence|].
  destruct suf as [|y suf]; simpl in Hp; [lia|].
  simpl; discriminate.
Qed.

Lemma guess_quality_from_nonempty : forall pats t,
  (forall pat a, In pat pats -> In a pat -> a <> []) -> guess_quality_from pats t <> [].
Proof.
  induction pats as [|pat pats IH]; intros t Hall; simpl; [discriminate|].
  destruct (re_search (first_alt pat) t) as [g|] eqn:E.
  - apply (re_search_first_alt_nonempty pat t); [intros a Ha; apply (Hall pat); simpl; auto | exact E].
  - apply IH; intros p a Hp Ha; apply (Hall p a); simpl; auto.
Qed.

Lemma guess_quality_nonempty : forall t, guess_quality t <> [].
Proof.
  intros t; apply guess_quality_from_nonempty.
  intros pat a Hp Ha; unfold q_patterns in Hp; simpl in Hp.
  repeat (destruct Hp as [<- | Hp];
          [simpl in Ha; repeat (destruct Ha as [<- | Ha]; [discriminate|]); destruct Ha|]).
  destruct Hp.
Qed.

Lemma guess_size_nonempty : forall t, guess_size t <> [].
Proof.
  intros t; unfold guess_size.
  destruct (re_search size_match_at t) as [g|] eqn:E.
  - destruct (size_search_head _ _ E) as (c & r & -> & _); discriminate.
  - destruct t; discriminate.
Qed.

Lemma resolve_url_events : forall parse_lxml c k count du ev,
  In ev (snd (resolve_url parse_lxml (Some c) k count du)) -> ev = EvGet du (cl_open c).
Proof.
  intros parse_lxml c k count du ev H; unfold resolve_url in H.
  destruct (count <? k); [|destruct H].
  unfold fetch_detail_link, client_get in H.
  destruct (cl_open c) eqn:Eo.
  - destruct (cl_serve c du) as [s b|m]; simpl in H; destruct H as [<-|[]]; reflexivity.
  - simpl in H; destruct H as [<-|[]]; reflexivity.
Qed.

Lemma parse_rows_events : forall parse_lxml urljoin rows c k now count ev,
  In ev (snd (parse_rows parse_lxml urljoin rows (Some c) k now count)) ->
  exists u, ev = EvGet u (cl_open c).
Proof.
  intros parse_lxml urljoin rows; induction rows as [|tr0 rows IH];
    intros c k now count ev H; cbn [parse_rows] in H; cbv zeta in H.
  1: destruct H.
  destruct (List.length (find_all_children (cps "td") tr0) <? 4)%nat; [eauto|].
  destruct (parse_cn_time _ now) as [dt|e]; [|destruct H].
  destruct (find_a_href _) as [a|]; [|eauto].
  destruct (urljoin BASE_URL (strip (href_of a))) as [du|e]; [|destruct H].
  destruct (resolve_url parse_lxml (Some c) k count du) as [[fu c'] ev0] eqn:Er.
  destruct (parse_rows parse_lxml urljoin rows (Some c) k now c') as [r0 evs'] eqn:Ep.
  simpl in H; apply in_app_or in H; destruct H as [H|H].
  - exists du; apply (resolve_url_events parse_lxml c k count du); rewrite Er; exact H.
  - apply (IH c k now c'); rewrite Ep; exact H.
Qed.

Lemma all_space_collapse : forall b t,
  forallb is_space t = true -> forallb is_space (collapse_ws b t) = true.
Proof.
  intros b t; revert b; induction t as [|x t IH]; intros b H; simpl in *; [reflexivity|].
  apply andb_true_iff in H; destruct H as [Hx H]; rewrite Hx.
  destruct b; simpl; [auto|rewrite (IH true H); reflexivity].
Qed.

Lemma lstrip_all_space : forall t, forallb is_space t = true -> lstrip t = [].
Proof.
  induction t as [|x t IH]; intros H; simpl in *; [reflexivity|].
  apply andb_true_iff in H; destruct H as [Hx H]; rewrite Hx; auto.
Qed.

Lemma clean_text_blank : forall t, forallb is_space t = true -> clean_text t = [].
Proof.
  intros t H; unfold clean_text, strip.
  rewrite (lstrip_all_space _ (all_space_collapse false t H)); reflexivity.
Qed.

Lemma parse_rows_ok_inv : forall parse_lxml urljoin rows cl k now count l,
  fst (parse_rows parse_lxml urljoin rows cl k now count) = Ok l ->
  forallb (row_date_ok now) rows = true /\
  forallb (row_join_ok urljoin) (filter row_retained rows) = true.
Proof.
  intros parse_lxml urljoin rows; induction rows as [|tr rows IH];
    intros cl k now count l H; cbn [parse_rows] in H; cbv zeta in H.
  1: split; reflexivity.
  cbn [forallb filter].
  destruct (List.length (find_all_children (cps "td") tr) <? 4)%nat eqn:E4.
  { assert (Hr : row_retained tr = false).
    { unfold row_retained, row_tds.
      replace (4 <=? List.length (find_all_children (cps "td") tr))%nat with false
        by (symmetry; apply Nat.leb_gt, Nat.ltb_lt; exact E4); reflexivity. }
    assert (Hd : row_date_ok now tr = true) by (unfold row_date_ok, row_tds; rewrite E4; reflexivity).
    rewrite Hr, Hd; exact (IH _ _ _ _ _ H). }
  assert (E4' : (4 <=? List.length (find_all_children (cps "td") tr))%nat = true)
    by (apply Nat.leb_le, Nat.ltb_ge; exact E4).
  destruct (parse_cn_time _ now) as [dt|e] eqn:Edt; [|discriminate H].
  assert (Hd : row_date_ok now tr = true)
    by (unfold row_date_ok, row_cell, row_tds; rewrite E4; cbn [orb]; rewrite Edt; reflexivity).
  rewrite Hd; cbn [andb].
  destruct (find_a_href _) as [a|] eqn:Ea.
  2:{ assert (Hr : row_retained tr = false)
        by (unfold row_retained, row_cell, row_tds; rewrite Ea; apply andb_false_r).
      rewrite Hr; exact (IH _ _ _ _ _ H). }
  destruct (urljoin BASE_URL (strip (href_of a))) as [du|e] eqn:Eu; [|discriminate H].
  assert (Hr : row_retained tr = true)
    by (unfold row_retained, row_cell, row_tds; rewrite Ea, E4'; reflexivity).
  assert (Hj0 : row_join_ok urljoin tr = true)
    by (unfold row_join_ok, row_detail_url, row_cell, row_tds; rewrite Ea, Eu; reflexivity).
  destruct (resolve_url parse_lxml cl k count du) as [[fu c'] ev0].
  destruct (parse_rows parse_lxml urljoin rows cl k now c') as [r evs'] eqn:Ep.
  destruct r as [l'|e]; [|discriminate H].
  destruct (IH cl k now c' l') as [Hd' Hj]; [rewrite Ep; reflexivity|].
  rewrite Hr; cbn [forallb]; rewrite Hj0, Hd', Hj; split; reflexivity.
Qed.

(** [_parse_today_table] on a document [html.parser] builds. *)
Lemma parse_today_table_doc : forall parse_html_parser parse_lxml urljoin html cl k now doc,
  parse_html_parser html = Ok doc ->
  parse_today_table parse_html_parser parse_lxml urljoin html cl k now =
  match select_list_table doc with
  | None => (Ok [], [])
  | Some tb => parse_rows parse_lxml urljoin (find_all_children (cps "tr") tb) cl k now 0
  end.
Proof. intros P L J html cl k now doc H; unfold parse_today_table; rewrite H; reflexivity. Qed.

(** The records of a returned list, row by row. *)
Lemma parse_today_table_records : forall parse_html_parser parse_lxml urljoin html cl k now l evs,
  parse_today_table parse_html_parser parse_lxml urljoin html cl k now = (Ok l, evs) ->
  Forall2 (row_record_ok urljoin now) (retained_rows (ok_list (parse_html_parser html))) l.
Proof.
  intros P L J html cl k now l evs H; unfold parse_today_table in H; unfold retained_rows, table_rows.
  destruct (P html) as [doc|e]; [|discriminate H]; cbn [ok_list].
  destruct (select_list_table doc) as [tb|].
  - exact (parse_rows_records L J _ cl k now 0 l evs H).
  - inversion H; constructor.
Qed.

(** C4: when [html.parser] rejects the markup, [_parse_today_table] raises
    the parser's exception.  On a document it builds: [] without the table;
    when it returns a list, that list holds one record per row with 4+ cells
    and a link in the third, in document order, built from that row; and it
    returns a list exactly when every row with 4+ cells has a date cell
    [_parse_cn_time] accepts and [urljoin] accepts every retained row's link,
    so that any other row with 4+ cells makes it raise. *)
Theorem parse_today_table_rows : forall parse_html_parser parse_lxml urljoin html cl k now,
  (forall e, parse_html_parser html = Exc e ->
     parse_today_table parse_html_parser parse_lxml urljoin html cl k now = (Exc e, [])) /\
  (forall doc, parse_html_parser html = Ok doc ->
     (select_list_table doc = None ->
        parse_today_table parse_html_parser parse_lxml urljoin html cl k now = (Ok [], [])) /\
     (forall l evs,
        parse_today_table parse_html_parser parse_lxml urljoin html cl k now = (Ok l, evs) ->
        Forall2 (row_record_ok urljoin now) (retained_rows doc) l) /\
     ((exists l, fst (parse_today_table parse_html_parser parse_lxml urljoin html cl k now) = Ok l) <->
      forallb (row_date_ok now) (table_rows doc) = true /\
      forallb (row_join_ok urljoin) (retained_rows doc) = true)).
Proof.
  intros P L J html cl k now.
  split; [intros e He; unfold parse_today_table; rewrite He; reflexivity|].
  intros doc Hdoc.
  rewrite (parse_today_table_doc P L J html cl k now doc Hdoc).
  unfold retained_rows, table_rows.
  destruct (select_list_table doc) as [tb|] eqn:E.
  - split; [discriminate|split].
    + intros l evs H; exact (parse_rows_records L J _ cl k now 0 l evs H).
    + split; [intros [l Hl]; exact (parse_rows_ok_inv L J _ cl k now 0 l Hl)|].
      intros [Hd Hu]; apply parse_rows_ok.
      * intros tr Hin H4; rewrite forallb_forall in Hd; specialize (Hd tr Hin).
        unfold row_date_ok in Hd; apply Nat.ltb_ge in H4; rewrite H4 in Hd; cbn [orb] in Hd.
        destruct (parse_cn_time _ now) as [dt|e]; [eauto|discriminate].
      * intros tr Hin Hr; rewrite forallb_forall in Hu.
        assert (Hf : In tr (filter row_retained (find_all_children (cps "tr") tb)))
          by (apply filter_In; auto).
        specialize (Hu tr Hf); unfold row_join_ok in Hu.
        destruct (row_detail_url J tr); [discriminate|discriminate Hu].
  - split; [reflexivity|split].
    + intros l evs H; inversion H; constructor.
    + split; [intros _; split; reflexivity|intros _; exists []; reflexivity].
Qed.

(** Witness of C4 on a page with a short row, a well-formed row and a row
    without a link: the list is returned, one record for the one retained
    row; a parser rejecting the markup makes the call raise. *)
Lemma parse_today_table_rows_witness :
  (exists l, fst (parse_today_table (fun _ => Ok mixed_page) detail_dom join_path [] None 12 sample_now) = Ok l) /\
  List.length (retained_rows mixed_page) = 1%nat /\
  parse_today_table (fun _ => Exc (ParserRejectedMarkup "unknown status keyword")) detail_dom join_path
    (cps "<![foo[") None 12 sample_now = (Exc (ParserRejectedMarkup "unknown status keyword"), []).
Proof.
  split; [|split; [vm_compute; reflexivity|]].
  - apply (proj2 (proj2 (proj2 (proj2 (parse_today_table_rows (fun _ => Ok mixed_page) detail_dom join_path
             [] None 12 sample_now) mixed_page eq_refl)))); split; vm_compute; reflexivity.
  - apply (proj1 (parse_today_table_rows (fun _ => Exc (ParserRejectedMarkup "unknown status keyword"))
             detail_dom join_path (cps "<![foo[") None 12 sample_now)); reflexivity.
Defined.

(** C4 counterexample: a row with four cells and no link, dated "今天 25:00",
    is not retained, yet [_parse_today_table] raises [ValueError] instead of
    returning the empty list. *)
Lemma parse_today_table_bad_date_raises :
  retained_rows bad_date_page = [] /\
  fst (parse_today_table (fun _ => Ok bad_date_page) detail_dom join_path [] None 12 sample_now)
    = Exc (ValueError "hour must be in 0..23").
Proof. split; vm_compute; reflexivity. Qed.

(** C5: with a client and cap [k], the [i]-th record (0-based) belongs to
    the [i]-th retained row; its url is the result of [_fetch_detail_link] on
    that row's detail-page URL when [i < k], and that URL itself otherwise. *)
Theorem parse_today_table_detail_cap : forall parse_html_parser parse_lxml urljoin html c k now l evs,
  parse_today_table parse_html_parser parse_lxml urljoin html (Some c) k now = (Ok l, evs) ->
  List.length l = List.length (retained_rows (ok_list (parse_html_parser html))) /\
  (forall i r tr, nth_error l i = Some r ->
     nth_error (retained_rows (ok_list (parse_html_parser html))) i = Some tr ->
     exists du, row_detail_url urljoin tr = Some du /\
       url r = if Z.of_nat i <? k then fst (fetch_detail_link parse_lxml c du) else du).
Proof.
  intros P L J html c k now l evs H.
  pose proof (parse_today_table_records P L J html (Some c) k now l evs H) as Hf.
  split; [exact (eq_sym (Forall2_length Hf))|].
  unfold parse_today_table in H; unfold retained_rows, table_rows.
  destruct (P html) as [doc|e]; [|discriminate H]; cbn [ok_list].
  destruct (select_list_table doc) as [tb|] eqn:E.
  - intros i r tr Hr Htr.
    rewrite <- (Z.add_0_l (Z.of_nat i)).
    exact (parse_rows_urls L J _ c k now 0 l evs H i r tr Hr Htr).
  - intros i r tr _ Htr; destruct i; discriminate Htr.
Qed.

(** Witness of C5: five well-formed rows, cap 2, a detail page with a magnet link. *)
Lemma parse_today_table_detail_cap_witness :
  let r := parse_today_table (fun _ => Ok five_rows_page) detail_dom join_path [] (Some detail_client) 2 sample_now in
  List.length (ok_list (fst r)) = List.length (retained_rows five_rows_page) /\
  (forall i x tr, nth_error (ok_list (fst r)) i = Some x ->
     nth_error (retained_rows five_rows_page) i = Some tr ->
     exists du, row_detail_url join_path tr = Some du /\
       url x = if Z.of_nat i <? 2 then fst (fetch_detail_link detail_dom detail_client du) else du).
Proof.
  intros r.
  apply (parse_today_table_detail_cap (fun _ => Ok five_rows_page) detail_dom join_path []
           detail_client 2 sample_now (ok_list (fst r)) (snd r)).
  vm_compute; reflexivity.
Defined.

(** C9: each record has a non-empty size and quality, and its title is the
    cleaned text of the row's title hyperlink, empty when that text is blank. *)
Theorem parse_today_table_fields : forall parse_html_parser parse_lxml urljoin html cl k now l evs,
  parse_today_table parse_html_parser parse_lxml urljoin html cl k now = (Ok l, evs) ->
  Forall2 (fun tr r =>
     size r <> [] /\ quality r <> [] /\
     exists a, find_a_href (row_cell 2 tr) = Some a /\ title r = clean_text (get_text a) /\
       (forallb is_space (get_text a) = true -> title r = []))
    (retained_rows (ok_list (parse_html_parser html))) l.
Proof.
  intros P L J html cl k now l evs H.
  pose proof (parse_today_table_records P L J html cl k now l evs H) as Hf.
  clear H; induction Hf as [|tr r trs rs Hx _ IH]; constructor; [clear IH|exact IH].
  destruct Hx as (a & Ha & _ & _ & Ht & Hs & Hq & _).
  split; [rewrite Hs; apply guess_size_nonempty|].
  split; [rewrite Hq; apply guess_quality_nonempty|].
  exists a; split; [exact Ha|split; [exact Ht|]].
  intros Hb; rewrite Ht; apply clean_text_blank; exact Hb.
Qed.

(** Witness of C9 on the five-row page. *)
Lemma parse_today_table_fields_witness :
  let r := parse_today_table (fun _ => Ok five_rows_page) detail_dom join_path [] None 12 sample_now in
  Forall2 (fun tr x =>
     size x <> [] /\ quality x <> [] /\
     exists a, find_a_href (row_cell 2 tr) = Some a /\ title x = clean_text (get_text a) /\
       (forallb is_space (get_text a) = true -> title x = []))
    (retained_rows five_rows_page) (ok_list (fst r)).
Proof.
  intros r.
  apply (parse_today_table_fields (fun _ => Ok five_rows_page) detail_dom join_path [] None 12
           sample_now (ok_list (fst r)) (snd r)).
  vm_compute; reflexivity.
Defined.

(** C9 counterexample: a retained row whose title hyperlink text is two
    spaces yields a record with an empty title. *)
Lemma parse_today_table_blank_title :
  exists r, fst (parse_today_table (fun _ => Ok blank_title_page) detail_dom join_path [] None 12 sample_now)
              = Ok [r] /\ title r = [].
Proof. vm_compute; eexists; split; reflexivity. Qed.



(** C2: whenever [scrape_comicat_today()] returns [(items, msg)],
    [scrape_latest] returns [results[0]] of that tuple, the whole item list:
    the empty list when there are no items, never the error payload. *)
Theorem scrape_latest_returns_item_list :
  (forall items msg, scrape_latest (Ok (items, msg)) = PList (map PInfo items)) /\
  scrape_latest (Ok ([], MsgNoEntries)) = PList [] /\
  PList [] <> error_payload (cps "No new anime releases today.").
Proof.
  split; [intros items msg; reflexivity|].
  split; [reflexivity|discriminate].
Qed.

(** The requests of one [scrape_comicat_today] call: the listing fetch on
    the open client, the close, then only requests on the closed client. *)
Lemma with_client_block_events : forall fs writable read_error serve,
  snd (fst (with_client_block fs writable read_error (mkclient true serve))) =
    [EvGet COMICAT_TODAY_URL true; EvClose].
Proof.
  intros fs writable read_error serve.
  unfold with_client_block, client_get; cbn [cl_open cl_serve].
  destruct (serve COMICAT_TODAY_URL) as [st b|m]; [|reflexivity].
  cbv beta iota zeta.
  destruct (looks_like_captcha b); [|reflexivity].
  destruct (write_snapshot writable fs b) as [content|]; [|reflexivity].
  destruct (read_snapshot read_error content); reflexivity.
Qed.

Lemma scrape_comicat_today_events : forall parse_html_parser parse_lxml urljoin serve fs writable read_error now,
  exists evs2,
    snd (fst (scrape_comicat_today parse_html_parser parse_lxml urljoin serve fs writable read_error now)) =
      [EvGet COMICAT_TODAY_URL true; EvClose] ++ evs2 /\
    forall ev, In ev evs2 -> exists u, ev = EvGet u false.
Proof.
  intros P L J serve fs writable read_error now.
  unfold scrape_comicat_today.
  pose proof (with_client_block_events fs writable read_error serve) as He.
  destruct (with_client_block fs writable read_error (mkclient true serve)) as [[fs' evs] r] eqn:Ew.
  cbn [fst snd] in He; subst evs.
  destruct r as [[items msg|html msg]|e]; try (exists []; split; [reflexivity|intros ev []]).
  destruct (parse_today_table P L J html (Some (mkclient false serve)) 12 now) as [items_r evs2] eqn:Ep.
  exists evs2; split; [reflexivity|].
  intros ev Hin; unfold parse_today_table in Ep.
  destruct (P html) as [doc|e]; [|inversion Ep; subst; destruct Hin].
  destruct (select_list_table doc) as [tb|]; [|inversion Ep; subst; destruct Hin].
  apply (parse_rows_events L J (find_all_children (cps "tr") tb) (mkclient false serve) 12 now 0 ev).
  rewrite Ep; exact Hin.
Qed.

(** C3: every detail-page request of a [scrape_comicat_today] call comes
    after the close of the client and is made on the closed client; on a
    listing of five rows whose detail pages carry magnet links, all five
    requests hit the closed client and every record keeps its detail-page URL. *)
Theorem scrape_comicat_today_detail_fetch_after_close :
  (forall parse_html_parser parse_lxml urljoin serve fs writable read_error now,
   exists evs2,
     snd (fst (scrape_comicat_today parse_html_parser parse_lxml urljoin serve fs writable read_error now)) =
       [EvGet COMICAT_TODAY_URL true; EvClose] ++ evs2 /\
     forall ev, In ev evs2 -> exists u, ev = EvGet u false) /\
  let r := scrape_comicat_today (fun _ => Ok five_rows_page) detail_dom join_path detail_serve None true None sample_now in
  snd (fst r) = [EvGet COMICAT_TODAY_URL true; EvClose] ++
                map (fun k => EvGet (numbered_url k) false) [1; 2; 3; 4; 5] /\
  map url (match snd r with Ok (items, _) => items | Exc _ => [] end) = map numbered_url [1; 2; 3; 4; 5] /\
  fst (fetch_detail_link detail_dom detail_client (numbered_url 1)) = sample_magnet.
Proof.
  split; [exact scrape_comicat_today_events|].
  vm_compute; split; [reflexivity|split; reflexivity].
Qed.

(** ** Further properties: [_clean_text] *)

Lemma lstrip_suffix : forall t, exists p, t = p ++ lstrip t.
Proof.
  induction t as [|c t IH]; simpl; [exists []; reflexivity|].
  destruct (is_space c); [destruct IH as [p Hp]; exists (c :: p); simpl; congruence|].
  exists []; reflexivity.
Qed.

Lemma lstrip_head : forall t c r, lstrip t = c :: r -> is_space c = false.
Proof.
  induction t as [|x t IH]; intros c r H; simpl in H; [discriminate|].
  destruct (is_space x) eqn:E; [eauto|inversion H; subst; exact E].
Qed.

Lemma lstrip_keeps : forall t c, In c t -> is_space c = false -> In c (lstrip t).
Proof.
  induction t as [|x t IH]; intros c Hin Hc; simpl in *; [exact Hin|].
  destruct (is_space x) eqn:E; [|exact Hin].
  destruct Hin as [<-|Hin]; [congruence|auto].
Qed.

Lemma lstrip_no_edge : forall t, (forall c r, t = c :: r -> is_space c = false) -> lstrip t = t.
Proof. intros [|c t] H; simpl; [reflexivity|]; rewrite (H c t eq_refl); reflexivity. Qed.

Lemma only_plain_spaces_app_r : forall p t, only_plain_spaces (p ++ t) -> only_plain_spaces t.
Proof. intros p t H c Hin; apply H, in_or_app; auto. Qed.

Lemma only_plain_spaces_rev : forall t, only_plain_spaces t -> only_plain_spaces (rev t).
Proof. intros t H c Hin; apply H, in_rev; exact Hin. Qed.

Lemma no_double_space_app_r : forall p t, no_double_space (p ++ t) -> no_double_space t.
Proof. intros p t H pre c d post E; apply (H (p ++ pre) c d post); rewrite E, app_assoc; reflexivity. Qed.

Lemma no_double_space_rev : forall t, no_double_space t -> no_double_space (rev t).
Proof.
  intros t H pre c d post E.
  assert (E' : t = rev post ++ d :: c :: rev pre).
  { rewrite <- (rev_involutive t), E, rev_app_distr; simpl; rewrite <- !app_assoc; reflexivity. }
  intros [Hc Hd]; apply (H _ _ _ _ E'); auto.
Qed.

Lemma no_double_space_cons : forall x t, no_double_space t ->
  (forall d r, t = d :: r -> ~ (is_space x = true /\ is_space d = true)) -> no_double_space (x :: t).
Proof.
  intros x t H Hx [|y pre] c d post E; simpl in E; inversion E; subst.
  - apply (Hx d post eq_refl).
  - apply (H pre c d post eq_refl).
Qed.

Lemma collapse_plain : forall b s, only_plain_spaces (collapse_ws b s).
Proof.
  intros b s; revert b; induction s as [|x s IH]; intros b c Hin Hc; simpl in Hin; [destruct Hin|].
  destruct (is_space x) eqn:E; [destruct b|].
  - exact (IH true c Hin Hc).
  - destruct Hin as [<-|Hin]; [reflexivity|exact (IH true c Hin Hc)].
  - destruct Hin as [<-|Hin]; [congruence|exact (IH false c Hin Hc)].
Qed.

Lemma collapse_no_double : forall s b, no_double_space (collapse_ws b s) /\
  (b = true -> forall c r, collapse_ws b s = c :: r -> is_space c = false).
Proof.
  induction s as [|x s IH]; intros b; simpl.
  - split; [intros [|] ? ? ? E; discriminate|intros _ c r E; discriminate].
  - destruct (is_space x) eqn:E; [destruct b|].
    + exact (IH true).
    + split; [|discriminate].
      destruct (IH true) as [H1 H2]; apply no_double_space_cons; [exact H1|].
      intros d r Er [_ Hd]; rewrite (H2 eq_refl d r Er) in Hd; discriminate.
    + split; [|intros _ c r Er; inversion Er; subst; exact E].
      destruct (IH false) as [H1 _]; apply no_double_space_cons; [exact H1|].
      intros d r _ [Hx _]; congruence.
Qed.

Lemma collapse_keeps : forall s b c, In c s -> is_space c = false -> In c (collapse_ws b s).
Proof.
  induction s as [|x s IH]; intros b c Hin Hc; simpl in *; [exact Hin|].
  destruct Hin as [<-|Hin].
  - rewrite Hc; left; reflexivity.
  - destruct (is_space x); [destruct b; [|right]|right]; apply IH; assumption.
Qed.

Lemma strip_edges : forall t, no_edge_space (strip t).
Proof.
  intros t; unfold strip; split.
  - intros c r E.
    destruct (lstrip_suffix (rev (lstrip t))) as [p Hp].
    assert (Hu : lstrip t = rev (lstrip (rev (lstrip t))) ++ rev p).
    { rewrite <- (rev_involutive (lstrip t)) at 1; rewrite Hp at 1.
      rewrite rev_app_distr; reflexivity. }
    rewrite E in Hu; exact (lstrip_head _ _ _ Hu).
  - intros c r E.
    assert (E' : lstrip (rev (lstrip t)) = c :: rev r).
    { rewrite <- (rev_involutive (lstrip (rev (lstrip t)))), E, rev_app_distr; reflexivity. }
    exact (lstrip_head _ _ _ E').
Qed.

Lemma strip_plain : forall t, only_plain_spaces t -> only_plain_spaces (strip t).
Proof.
  intros t H; unfold strip.
  destruct (lstrip_suffix t) as [p Hp]; rewrite Hp in H; apply only_plain_spaces_app_r in H.
  apply only_plain_spaces_rev in H.
  destruct (lstrip_suffix (rev (lstrip t))) as [q Hq]; rewrite Hq in H.
  apply only_plain_spaces_app_r in H; apply only_plain_spaces_rev; exact H.
Qed.

Lemma strip_no_double : forall t, no_double_space t -> no_double_space (strip t).
Proof.
  intros t H; unfold strip.
  destruct (lstrip_suffix t) as [p Hp]; rewrite Hp in H; apply no_double_space_app_r in H.
  apply no_double_space_rev in H.
  destruct (lstrip_suffix (rev (lstrip t))) as [q Hq]; rewrite Hq in H.
  apply no_double_space_app_r in H; apply no_double_space_rev; exact H.
Qed.

Lemma strip_keeps : forall t c, In c t -> is_space c = false -> In c (strip t).
Proof.
  intros t c Hin Hc; unfold strip; apply (proj1 (in_rev _ _)).
  apply lstrip_keeps; [apply (proj2 (in_rev _ _)); rewrite rev_involutive|exact Hc].
  apply lstrip_keeps; assumption.
Qed.

Lemma strip_no_edge_id : forall t, no_edge_space t -> strip t = t.
Proof.
  intros t [Hh Hl]; unfold strip; rewrite (lstrip_no_edge t Hh).
  rewrite lstrip_no_edge; [apply rev_involutive|].
  intros c r E; apply (Hl c (rev r)).
  rewrite <- (rev_involutive t), E; reflexivity.
Qed.

Lemma collapse_id : forall t b, only_plain_spaces t -> no_double_space t ->
  (b = true -> forall c r, t = c :: r -> is_space c = false) -> collapse_ws b t = t.
Proof.
  induction t as [|x t IH]; intros b Hp Hd Hb; simpl; [reflexivity|].
  assert (Hp' : only_plain_spaces t) by (apply (only_plain_spaces_app_r [x]); exact Hp).
  assert (Hd' : no_double_space t) by (apply (no_double_space_app_r [x]); exact Hd).
  destruct (is_space x) eqn:E.
  - destruct b; [rewrite (Hb eq_refl x t eq_refl) in E; discriminate|].
    rewrite (Hp x (or_introl eq_refl) E).
    rewrite (IH true Hp' Hd'); [reflexivity|].
    intros _ c r Er; destruct (is_space c) eqn:Ec; [|reflexivity].
    exfalso; apply (Hd [] x c r); [rewrite Er; reflexivity|auto].
  - rewrite (IH false Hp' Hd'); [reflexivity|discriminate].
Qed.

(** [_clean_text]'s output: white space only as single plain spaces, none
    at either end. *)
Lemma clean_text_normal : forall s,
  only_plain_spaces (clean_text s) /\ no_double_space (clean_text s) /\ no_edge_space (clean_text s).
Proof.
  intros s; unfold clean_text; split; [|split].
  - apply strip_plain, collapse_plain.
  - apply strip_no_double, (collapse_no_double s false).
  - apply strip_edges.
Qed.

Lemma forallb_false_exists {A} (f : A -> bool) l :
  forallb f l = false -> exists x, In x l /\ f x = false.
Proof.
  induction l as [|x l IH]; simpl; [discriminate|].
  destruct (f x) eqn:E; simpl; [intros H; destruct (IH H) as (y & Hy & Hf); eauto|eauto].
Qed.

(** X1: [_clean_text] returns text whose only white-space characters are
    single plain spaces, with no white space at the start or the end. *)
Theorem clean_text_normal_form : forall s,
  only_plain_spaces (clean_text s) /\ no_double_space (clean_text s) /\ no_edge_space (clean_text s).
Proof. exact clean_text_normal. Qed.

(** X2: the texts [_clean_text] leaves unchanged are exactly those of that
    form; so cleaning twice is cleaning once. *)
Theorem clean_text_fixed_points :
  (forall t, clean_text t = t <->
     only_plain_spaces t /\ no_double_space t /\ no_edge_space t) /\
  (forall s, clean_text (clean_text s) = clean_text s).
Proof.
  assert (Hfix : forall t, only_plain_spaces t -> no_double_space t -> no_edge_space t ->
                 clean_text t = t).
  { intros t Hp Hd He; unfold clean_text.
    rewrite (collapse_id t false Hp Hd) by discriminate.
    apply strip_no_edge_id; exact He. }
  split.
  - intros t; split.
    + intros E; rewrite <- E; apply clean_text_normal.
    + intros (Hp & Hd & He); apply Hfix; assumption.
  - intros s; destruct (clean_text_normal s) as (Hp & Hd & He); apply Hfix; assumption.
Qed.

(** X3: [_clean_text] returns the empty string exactly when its input is
    empty or white space only. *)
Theorem clean_text_empty_iff : forall s, clean_text s = [] <-> forallb is_space s = true.
Proof.
  intros s; split; [|apply clean_text_blank].
  intros E; destruct (forallb is_space s) eqn:F; [reflexivity|exfalso].
  destruct (forallb_false_exists _ _ F) as (c & Hin & Hc).
  assert (H : In c (clean_text s)) by (apply strip_keeps; [apply collapse_keeps|]; assumption).
  rewrite E in H; destruct H.
Qed.

(** ** Further properties: [_guess_quality], [_looks_like_captcha],
    [_extract_magnet_from_detail] *)

Lemma ci_prefix_firstn : forall a t, ci_prefix a t = true ->
  map fold (firstn (List.length a) t) = map fold a.
Proof.
  induction a as [|x a IH]; intros t H; [reflexivity|].
  destruct t as [|y t]; [discriminate|].
  simpl in H; apply andb_true_iff in H; destruct H as [Hx H].
  apply Z.eqb_eq in Hx; simpl; rewrite Hx, (IH t H); reflexivity.
Qed.

Lemma guess_quality_from_shape : forall pats t,
  guess_quality_from pats t = cps "unknown" \/
  exists pat a pre post, In pat pats /\ In a pat /\
    t = pre ++ guess_quality_from pats t ++ post /\
    map fold (guess_quality_from pats t) = map fold a.
Proof.
  induction pats as [|pat pats IH]; intros t; simpl; [left; reflexivity|].
  destruct (re_search (first_alt pat) t) as [g|] eqn:E.
  - right.
    destruct (re_search_firstn _ _ _ E) as (pre & suf & n & -> & Hm & ->).
    destruct (first_alt_some _ _ _ Hm) as (a & Ha & -> & Hp).
    exists pat, a, pre, (skipn (List.length a) suf); split; [left; reflexivity|].
    split; [exact Ha|split; [rewrite firstn_skipn; reflexivity|apply ci_prefix_firstn; exact Hp]].
  - destruct (IH t) as [H|(p & a & pre & post & Hp & Ha & Ht & Hf)]; [left; exact H|right].
    exists p, a, pre, post; auto.
Qed.

(** X4: [_guess_quality] returns "unknown", or a piece of its input taken
    verbatim that equals, up to letter case, one of the alternatives of its
    patterns. *)
Theorem guess_quality_verbatim : forall t,
  guess_quality t = cps "unknown" \/
  exists pat a pre post, In pat q_patterns /\ In a pat /\
    t = pre ++ guess_quality t ++ post /\ map fold (guess_quality t) = map fold a.
Proof. intros t; exact (guess_quality_from_shape q_patterns t). Qed.

Lemma starts_with_app : forall p t b, starts_with p t = true -> starts_with p (t ++ b) = true.
Proof.
  induction p as [|x p IH]; intros t b H; [reflexivity|].
  destruct t as [|y t]; [discriminate|].
  simpl in *; apply andb_true_iff in H; destruct H as [Hx H]; rewrite Hx; simpl; auto.
Qed.

Lemma contains_app_r : forall p t b, contains p t = true -> contains p (t ++ b) = true.
Proof.
  intros p t b; induction t as [|x t IH]; intros H; simpl in H.
  - rewrite orb_false_r in H; simpl.
    destruct p; [destruct b; reflexivity|discriminate].
  - change (contains p ((x :: t) ++ b)) with
      (starts_with p ((x :: t) ++ b) || contains p (t ++ b)).
    apply orb_true_iff in H; destruct H as [H|H].
    + rewrite (starts_with_app _ _ _ H); reflexivity.
    + rewrite (IH H), orb_true_r; reflexivity.
Qed.

Lemma contains_app_l : forall p a t, contains p t = true -> contains p (a ++ t) = true.
Proof.
  intros p a t H; induction a as [|x a IH]; [exact H|].
  change (contains p ((x :: a) ++ t)) with (starts_with p ((x :: a) ++ t) || contains p (a ++ t)).
  rewrite IH, orb_true_r; reflexivity.
Qed.

(** X5: a page [_looks_like_captcha] flags stays flagged whatever text
    surrounds it. *)
Theorem looks_like_captcha_in_context : forall a t b,
  looks_like_captcha t = true -> looks_like_captcha (a ++ t ++ b) = true.
Proof.
  intros a t b H; unfold looks_like_captcha, lower in *.
  rewrite !map_app.
  apply existsb_exists in H; destruct H as (m & Hm & Hc).
  apply existsb_exists; exists m; split; [exact Hm|].
  apply contains_app_l, contains_app_r; exact Hc.
Qed.

(** Witness of X5: the captcha form wrapped in a page. *)
Lemma looks_like_captcha_in_context_witness :
  looks_like_captcha (cps "<html><body>" ++ blocked_body ++ cps "</body></html>") = true.
Proof. apply looks_like_captcha_in_context; vm_compute; reflexivity. Defined.

Lemma find_none_all {A} (f : A -> bool) l : find f l = None -> forall x, In x l -> f x = false.
Proof.
  induction l as [|y l IH]; intros H x Hin; [destruct Hin|].
  simpl in H; destruct (f y) eqn:E; [discriminate|].
  destruct Hin as [<-|Hin]; auto.
Qed.

Lemma find_in {A} (f : A -> bool) l x : find f l = Some x -> In x l.
Proof.
  induction l as [|y l IH]; simpl; [discriminate|].
  destruct (f y); [intros H; inversion H; auto|auto].
Qed.

Lemma find_all_false {A} (f : A -> bool) l : (forall x, In x l -> f x = false) -> find f l = None.
Proof.
  induction l as [|y l IH]; intros H; simpl; [reflexivity|].
  rewrite (H y (or_introl eq_refl)); apply IH; intros; apply H; right; assumption.
Qed.

(** X6: [_extract_magnet_from_detail] returns "" exactly when no stripped
    [href] of an [a] element starts with the magnet prefix, ends in
    ".torrent" or contains "download" (ignoring ASCII case); otherwise it
    returns one of those stripped [href]s, which has one of these forms. *)
Theorem extract_magnet_from_detail_result : forall parse_lxml html,
  let hrefs := map (fun a => strip (href_of a)) (all_a_href (parse_lxml html)) in
  (extract_magnet_from_detail parse_lxml html = [] <->
     forall h, In h hrefs -> starts_with magnet_prefix h = false /\ is_download_href h = false) /\
  (extract_magnet_from_detail parse_lxml html <> [] ->
     In (extract_magnet_from_detail parse_lxml html) hrefs /\
     (starts_with magnet_prefix (extract_magnet_from_detail parse_lxml html) = true \/
      is_download_href (extract_magnet_from_detail parse_lxml html) = true)).
Proof.
  intros parse_lxml html hrefs; unfold extract_magnet_from_detail; fold hrefs.
  destruct (find (starts_with magnet_prefix) hrefs) as [h|] eqn:E1.
  - pose proof (find_some_prop _ _ _ E1) as Hm.
    split.
    + split; [intros ->; discriminate|].
      intros H; destruct (H h (find_in _ _ _ E1)) as [Hf _]; congruence.
    + intros _; split; [exact (find_in _ _ _ E1)|left; exact Hm].
  - destruct (find is_download_href hrefs) as [h|] eqn:E2.
    + pose proof (find_some_prop _ _ _ E2) as Hd.
      split.
      * split; [intros ->; discriminate|].
        intros H; destruct (H h (find_in _ _ _ E2)) as [_ Hf]; congruence.
      * intros _; split; [exact (find_in _ _ _ E2)|right; exact Hd].
    + split; [|intros H; congruence].
      split; [|reflexivity].
      intros _ h Hin; split; [exact (find_none_all _ _ E1 h Hin)|exact (find_none_all _ _ E2 h Hin)].
Qed.

(** ** Further properties: [_parse_cn_time], [_parse_today_table] *)

Lemma mk_datetime_valid : forall y mo d hh mm tz x,
  mk_datetime y mo d hh mm tz = Ok x ->
  valid_datetime x /\ dt_tz x = tz /\ dt_second x = 0 /\ dt_micro x = 0.
Proof.
  intros y mo d hh mm tz x H; unfold mk_datetime in H.
  destruct ((1 <=? y) && (y <=? 9999)) eqn:E1; simpl in H; [|discriminate].
  destruct ((1 <=? mo) && (mo <=? 12)) eqn:E2; simpl in H; [|discriminate].
  destruct ((1 <=? d) && (d <=? days_in_month y mo)) eqn:E3; simpl in H; [|discriminate].
  destruct ((0 <=? hh) && (hh <=? 23)) eqn:E4; simpl in H; [|discriminate].
  destruct ((0 <=? mm) && (mm <=? 59)) eqn:E5; simpl in H; [|discriminate].
  inversion H; subst; clear H.
  apply andb_true_iff in E1, E2, E3, E4, E5.
  destruct E1 as [E1 E1']; destruct E2 as [E2 E2']; destruct E3 as [E3 E3'];
  destruct E4 as [E4 E4']; destruct E5 as [E5 E5'].
  apply Z.leb_le in E1, E1', E2, E2', E3, E3', E4, E4', E5, E5'.
  unfold valid_datetime; simpl; repeat split; lia.
Qed.

Lemma parse_cn_time_valid : forall t now dt,
  valid_datetime now -> parse_cn_time t now = Ok dt ->
  valid_datetime dt /\ (dt = now \/ (dt_tz dt = Taipei /\ dt_second dt = 0 /\ dt_micro dt = 0)).
Proof.
  intros t now dt Hv H; unfold parse_cn_time in H; cbv zeta in H.
  destruct (match_day_time (strip t)) as [[[is_today hh] mm]|].
  - destruct (if is_today then Ok (date_of now) else prev_date (date_of now)) as [[[y m] d]|e];
      cbn [bind] in H; [|discriminate].
    destruct (mk_datetime_valid _ _ _ _ _ _ _ H) as (V & T & S & M); auto.
  - destruct (match_abs_time (strip t)) as [[[[[y mo] d] hh] mm]|].
    + destruct (mk_datetime_valid _ _ _ _ _ _ _ H) as (V & T & S & M); auto.
    + inversion H; subst; auto.
Qed.

(** X7: for a valid [now], every date-time [_parse_cn_time] returns is a
    valid date-time, and it is either [now] itself or in the Asia/Taipei
    zone at a whole minute. *)
Theorem parse_cn_time_result_valid : forall t now dt,
  valid_datetime now -> parse_cn_time t now = Ok dt ->
  valid_datetime dt /\ (dt = now \/ (dt_tz dt = Taipei /\ dt_second dt = 0 /\ dt_micro dt = 0)).
Proof. exact parse_cn_time_valid. Qed.

(** Witness of X7 at "昨天 23:59" on 2024-03-01. *)
Lemma parse_cn_time_result_valid_witness :
  valid_datetime (mkdt 2024 2 29 23 59 0 0 Taipei) /\
  (mkdt 2024 2 29 23 59 0 0 Taipei = mkdt 2024 3 1 0 30 0 0 Taipei \/
   (dt_tz (mkdt 2024 2 29 23 59 0 0 Taipei) = Taipei /\
    dt_second (mkdt 2024 2 29 23 59 0 0 Taipei) = 0 /\
    dt_micro (mkdt 2024 2 29 23 59 0 0 Taipei) = 0)).
Proof.
  apply (parse_cn_time_result_valid (yesterday_text 23 59) (mkdt 2024 3 1 0 30 0 0 Taipei)).
  - unfold valid_datetime, days_in_month, is_leap; simpl; lia.
  - vm_compute; reflexivity.
Defined.

(** [_parse_today_table]'s loop over the rows, from [r1 ++ r2]. *)
Lemma parse_rows_skip_short : forall parse_lxml urljoin r1 short r2 cl k now count,
  (List.length (row_tds short) < 4)%nat ->
  parse_rows parse_lxml urljoin (r1 ++ short :: r2) cl k now count =
  parse_rows parse_lxml urljoin (r1 ++ r2) cl k now count.
Proof.
  intros parse_lxml urljoin r1 short r2 cl k now; induction r1 as [|tr r1 IH]; intros count Hs.
  - cbn [app parse_rows]; unfold row_tds in Hs; apply Nat.ltb_lt in Hs; rewrite Hs; reflexivity.
  - cbn [app parse_rows]; cbv zeta.
    destruct (List.length (find_all_children (cps "td") tr) <? 4)%nat; [apply IH; exact Hs|].
    destruct (parse_cn_time _ now) as [dt|e]; [|reflexivity].
    destruct (find_a_href _) as [a|]; [|apply IH; exact Hs].
    destruct (urljoin BASE_URL (strip (href_of a))) as [du|e]; [|reflexivity].
    destruct (resolve_url parse_lxml cl k count du) as [[fu c'] ev0].
    rewrite (IH c' Hs); reflexivity.
Qed.

(** X8: in [_parse_today_table]'s loop, a row with fewer than four direct
    cells, wherever it stands, changes nothing: not the records, not the
    detail requests, not the exception raised. *)
Theorem parse_rows_short_row_inert : forall parse_lxml urljoin r1 short r2 cl k now count,
  (List.length (row_tds short) < 4)%nat ->
  parse_rows parse_lxml urljoin (r1 ++ short :: r2) cl k now count =
  parse_rows parse_lxml urljoin (r1 ++ r2) cl k now count.
Proof. exact parse_rows_skip_short. Qed.

(** Witness of X8: a two-cell row put between the rows of a listing. *)
Lemma parse_rows_short_row_inert_witness :
  parse_rows detail_dom join_path ([numbered_row 1] ++ Elem (cps "tr") [] [td (cps "x")] :: [numbered_row 2])
    (Some detail_client) 1 sample_now 0 =
  parse_rows detail_dom join_path ([numbered_row 1] ++ [numbered_row 2]) (Some detail_client) 1 sample_now 0.
Proof. apply parse_rows_short_row_inert; apply Nat.ltb_lt; vm_compute; reflexivity. Defined.

Lemma parse_rows_request_count : forall parse_lxml urljoin rows c k now count,
  (List.length (snd (parse_rows parse_lxml urljoin rows (Some c) k now count)) <= Z.to_nat (k - count))%nat /\
  (forall l, fst (parse_rows parse_lxml urljoin rows (Some c) k now count) = Ok l ->
     List.length (snd (parse_rows parse_lxml urljoin rows (Some c) k now count))
     = Nat.min (List.length l) (Z.to_nat (k - count))).
Proof.
  intros parse_lxml urljoin rows; induction rows as [|tr rows IH]; intros c k now count;
    cbn [parse_rows]; cbv zeta.
  1: split; [simpl; lia|intros l H; inversion H; subst; simpl; lia].
  destruct (List.length (find_all_children (cps "td") tr) <? 4)%nat; [apply IH|].
  destruct (parse_cn_time _ now) as [dt|e]; [|split; [simpl; lia|discriminate]].
  destruct (find_a_href _) as [a|]; [|apply IH].
  destruct (urljoin BASE_URL (strip (href_of a))) as [du|e]; [|split; [simpl; lia|discriminate]].
  unfold resolve_url.
  destruct (count <? k) eqn:Ek.
  - destruct (fetch_detail_link parse_lxml c du) as [fu ev].
    destruct (IH c k now (count + 1)) as [Hb He].
    destruct (parse_rows parse_lxml urljoin rows (Some c) k now (count + 1)) as [r evs'].
    apply Z.ltb_lt in Ek; simpl in Hb, He |- *.
    replace (Z.to_nat (k - count)) with (S (Z.to_nat (k - (count + 1)))) by lia.
    split; [lia|].
    destruct r as [l'|e]; simpl; [|discriminate].
    intros l H; inversion H; subst; rewrite (He l' eq_refl); simpl; lia.
  - destruct (IH c k now count) as [Hb He].
    destruct (parse_rows parse_lxml urljoin rows (Some c) k now count) as [r evs'].
    apply Z.ltb_ge in Ek; simpl in Hb, He |- *.
    replace (Z.to_nat (k - count)) with O in * by lia.
    split; [lia|].
    destruct r as [l'|e]; simpl; [|discriminate].
    intros l H; inversion H; subst; specialize (He l' eq_refl); simpl; lia.
Qed.

Lemma parse_rows_no_client : forall parse_lxml urljoin rows k now count,
  snd (parse_rows parse_lxml urljoin rows None k now count) = [] /\
  (forall l, fst (parse_rows parse_lxml urljoin rows None k now count) = Ok l ->
   Forall2 (fun tr r => row_detail_url urljoin tr = Some (url r)) (filter row_retained rows) l).
Proof.
  intros parse_lxml urljoin rows; induction rows as [|tr rows IH]; intros k now count;
    cbn [parse_rows]; cbv zeta.
  1: split; [reflexivity|intros l H; inversion H; constructor].
  cbn [filter]; unfold row_retained, row_cell, row_tds.
  destruct (List.length (find_all_children (cps "td") tr) <? 4)%nat eqn:E4.
  { replace (4 <=? List.length (find_all_children (cps "td") tr))%nat with false
      by (symmetry; apply Nat.leb_gt, Nat.ltb_lt; exact E4).
    apply IH. }
  replace (4 <=? List.length (find_all_children (cps "td") tr))%nat with true
    by (symmetry; apply Nat.leb_le, Nat.ltb_ge; exact E4).
  destruct (parse_cn_time _ now) as [dt|e]; [|split; [reflexivity|discriminate]].
  destruct (find_a_href _) as [a|] eqn:Ea; cbn [andb]; [|apply IH].
  destruct (urljoin BASE_URL (strip (href_of a))) as [du|e] eqn:Eu; [|split; [reflexivity|discriminate]].
  cbn [resolve_url].
  destruct (IH k now count) as [He Hr].
  destruct (parse_rows parse_lxml urljoin rows None k now count) as [r evs'].
  simpl in He |- *; subst evs'; split; [reflexivity|].
  destruct r as [l'|e]; simpl; [|discriminate].
  intros l H; inversion H; subst; constructor; [|exact (Hr l' eq_refl)].
  unfold row_detail_url, row_cell, row_tds; rewrite Ea, Eu; reflexivity.
Qed.

(** X9: [_parse_today_table] sends at most [max_detail] detail requests
    (none for [max_detail <= 0]); when it returns a list, it has sent
    exactly [min(len(list), max_detail)] of them. *)
Theorem parse_today_table_request_count : forall parse_html_parser parse_lxml urljoin html c k now,
  (List.length (snd (parse_today_table parse_html_parser parse_lxml urljoin html (Some c) k now))
     <= Z.to_nat k)%nat /\
  (forall l, fst (parse_today_table parse_html_parser parse_lxml urljoin html (Some c) k now) = Ok l ->
     List.length (snd (parse_today_table parse_html_parser parse_lxml urljoin html (Some c) k now))
     = Nat.min (List.length l) (Z.to_nat k)).
Proof.
  intros P L J html c k now; unfold parse_today_table.
  destruct (P html) as [doc|e]; [|split; [simpl; lia|intros l H; discriminate H]].
  destruct (select_list_table doc) as [tb|].
  - replace (Z.to_nat k) with (Z.to_nat (k - 0)) by (f_equal; lia); apply parse_rows_request_count.
  - split; [simpl; lia|intros l H; inversion H; subst; simpl; lia].
Qed.

(** Witness of X9: five rows, cap 2, all five records returned after two requests. *)
Lemma parse_today_table_request_count_witness :
  List.length (snd (parse_today_table (fun _ => Ok five_rows_page) detail_dom join_path []
     (Some detail_client) 2 sample_now))
  = Nat.min (List.length (ok_list (fst (parse_today_table (fun _ => Ok five_rows_page) detail_dom join_path []
     (Some detail_client) 2 sample_now)))) (Z.to_nat 2).
Proof.
  apply (proj2 (parse_today_table_request_count (fun _ => Ok five_rows_page) detail_dom join_path []
                  detail_client 2 sample_now)).
  vm_compute; reflexivity.
Defined.

(** X10: without a detail client, [_parse_today_table] sends no request,
    and when it returns a list, each record's url is the detail-page URL
    [urljoin] builds from its row's link. *)
Theorem parse_today_table_no_client : forall parse_html_parser parse_lxml urljoin html k now,
  snd (parse_today_table parse_html_parser parse_lxml urljoin html None k now) = [] /\
  (forall l, fst (parse_today_table parse_html_parser parse_lxml urljoin html None k now) = Ok l ->
   Forall2 (fun tr r => row_detail_url urljoin tr = Some (url r))
     (retained_rows (ok_list (parse_html_parser html))) l).
Proof.
  intros P L J html k now; unfold parse_today_table, retained_rows, table_rows.
  destruct (P html) as [doc|e]; [|split; [reflexivity|intros l H; discriminate H]]; cbn [ok_list].
  destruct (select_list_table doc) as [tb|].
  - apply parse_rows_no_client.
  - split; [reflexivity|intros l H; inversion H; constructor].
Qed.

(** Witness of X10 on the five-row page. *)
Lemma parse_today_table_no_client_witness :
  Forall2 (fun tr r => row_detail_url join_path tr = Some (url r))
    (retained_rows five_rows_page)
    (ok_list (fst (parse_today_table (fun _ => Ok five_rows_page) detail_dom join_path [] None 12 sample_now))).
Proof.
  apply (proj2 (parse_today_table_no_client (fun _ => Ok five_rows_page) detail_dom join_path [] 12 sample_now)).
  vm_compute; reflexivity.
Defined.

(** X11: for a valid [now], every record [_parse_today_table] returns
    carries a valid date-time, which is [now] itself or in the Asia/Taipei
    zone at a whole minute, and its source is "comicat.org". *)
Theorem parse_today_table_dates_valid : forall parse_html_parser parse_lxml urljoin html cl k now l evs,
  valid_datetime now ->
  parse_today_table parse_html_parser parse_lxml urljoin html cl k now = (Ok l, evs) ->
  Forall (fun r => valid_datetime (date r) /\
    (date r = now \/ (dt_tz (date r) = Taipei /\ dt_second (date r) = 0 /\ dt_micro (date r) = 0)) /\
    source r = cps "comicat.org") l.
Proof.
  intros P L J html cl k now l evs Hv H.
  pose proof (parse_today_table_records P L J html cl k now l evs H) as Hf.
  clear H; induction Hf as [|tr r trs rs Hx _ IH]; constructor; [|exact IH].
  destruct Hx as (a & _ & _ & Hd & _ & _ & _ & Hs).
  destruct (parse_cn_time_valid _ _ _ Hv Hd) as [V D]; auto.
Qed.

(** Witness of X11 on the five-row page. *)
Lemma parse_today_table_dates_valid_witness :
  Forall (fun r => valid_datetime (date r) /\
    (date r = sample_now \/ (dt_tz (date r) = Taipei /\ dt_second (date r) = 0 /\ dt_micro (date r) = 0)) /\
    source r = cps "comicat.org")
    (ok_list (fst (parse_today_table (fun _ => Ok five_rows_page) detail_dom join_path [] None 12 sample_now))).
Proof.
  apply (parse_today_table_dates_valid (fun _ => Ok five_rows_page) detail_dom join_path [] None 12 sample_now
           _ (snd (parse_today_table (fun _ => Ok five_rows_page) detail_dom join_path [] None 12 sample_now))).
  - unfold valid_datetime, days_in_month, is_leap; simpl; lia.
  - vm_compute; reflexivity.
Defined.

(** ** Further properties: [scrape_comicat_today], [scrape_latest] *)

Lemma with_client_block_exits : forall fs writable read_error c fs' evs x,
  with_client_block fs writable read_error c = (fs', evs, Ok x) ->
  match x with
  | Returned items msg => items = [] /\ msg = MsgStillChallenged
  | Continue _ msg => msg = MsgServedFromCache \/ msg = MsgOK
  end.
Proof.
  intros fs writable read_error c fs' evs x H; unfold with_client_block in H.
  destruct (client_get c COMICAT_TODAY_URL) as [[[st b]|e] ev]; [|discriminate].
  destruct (looks_like_captcha b); [|inversion H; subst; auto].
  destruct (write_snapshot writable fs b) as [content|]; [|inversion H; subst; auto].
  destruct (read_snapshot read_error content); inversion H; subst; auto.
Qed.

Lemma scrape_comicat_today_shape :
  forall parse_html_parser parse_lxml urljoin serve fs writable read_error now items msg,
  snd (scrape_comicat_today parse_html_parser parse_lxml urljoin serve fs writable read_error now)
    = Ok (items, msg) ->
  (List.length items <= 5)%nat /\
  (items = [] <-> msg = MsgStillChallenged \/ msg = MsgNoEntries).
Proof.
  intros P L J serve fs writable read_error now items msg H; unfold scrape_comicat_today in H.
  destruct (with_client_block fs writable read_error (mkclient true serve)) as [[fs' evs] r] eqn:Ew.
  destruct r as [x|e]; [|discriminate].
  pose proof (with_client_block_exits _ _ _ _ _ _ _ Ew) as Hx.
  destruct x as [its m|html m].
  - simpl in H; inversion H; subst; destruct Hx as [-> ->]; simpl.
    split; [lia|split; auto].
  - destruct (parse_today_table P L J html (Some (mkclient false serve)) 12 now) as [ir evs2].
    cbn [snd] in H; destruct ir as [[|y ys]|e]; [| |discriminate].
    + injection H as <- <-; split; [simpl; lia|split; auto].
    + assert (Hi : items = firstn 5 (y :: ys)) by congruence.
      assert (Hm : msg = m) by congruence.
      rewrite Hi, Hm; clear H Hi Hm.
      split; [apply firstn_le_length|].
      split; [discriminate|].
      intros [-> | ->]; destruct Hx; discriminate.
Qed.

(** X12: when [scrape_comicat_today] returns [(items, msg)], there are at
    most five items, and there are none exactly when the diagnostic is the
    "still challenged" or the "no entries parsed" message. *)
Theorem scrape_comicat_today_result_shape :
  forall parse_html_parser parse_lxml urljoin serve fs writable read_error now items msg,
  snd (scrape_comicat_today parse_html_parser parse_lxml urljoin serve fs writable read_error now)
    = Ok (items, msg) ->
  (List.length items <= 5)%nat /\
  (items = [] <-> msg = MsgStillChallenged \/ msg = MsgNoEntries).
Proof. exact scrape_comicat_today_shape. Qed.

(** The items of a [scrape_comicat_today] result, [] on an exception. *)
Lemma scrape_comicat_today_result_shape_witness :
  let r := snd (scrape_comicat_today (fun _ => Ok five_rows_page) detail_dom join_path detail_serve
                  None true None sample_now) in
  let items := match r with Ok (items, _) => items | Exc _ => [] end in
  let msg := match r with Ok (_, m) => m | Exc _ => MsgOK end in
  (List.length items <= 5)%nat /\ (items = [] <-> msg = MsgStillChallenged \/ msg = MsgNoEntries).
Proof.
  intros r items msg.
  apply (scrape_comicat_today_result_shape (fun _ => Ok five_rows_page) detail_dom join_path detail_serve
           None true None sample_now items msg).
  vm_compute; reflexivity.
Defined.

(** X13: when the listing request fails at the network level, the
    exception propagates out of [scrape_comicat_today]: the snapshot is left
    as it was and nothing is parsed or fetched after the close. *)
Theorem scrape_comicat_today_network_failure :
  forall parse_html_parser parse_lxml urljoin serve fs writable read_error now m,
  serve COMICAT_TODAY_URL = NetworkFailure m ->
  scrape_comicat_today parse_html_parser parse_lxml urljoin serve fs writable read_error now =
    (fs, [EvGet COMICAT_TODAY_URL true; EvClose], Exc (HTTPError m)).
Proof.
  intros P L J serve fs writable read_error now m Hs.
  unfold scrape_comicat_today, with_client_block, client_get; cbn [cl_open cl_serve].
  rewrite Hs; reflexivity.
Qed.

(** Witness of X13: a server that cannot be reached. *)
Lemma scrape_comicat_today_network_failure_witness :
  scrape_comicat_today (fun _ => Ok []) detail_dom join_path (fun _ => NetworkFailure "timed out")
    (Some (Ok real_page)) true None sample_now =
  (Some (Ok real_page), [EvGet COMICAT_TODAY_URL true; EvClose], Exc (HTTPError "timed out")).
Proof. apply scrape_comicat_today_network_failure; reflexivity. Defined.





(** X16: the response of the [/api/scrape] handler is a JSON array of at
    most five records, or an error payload whose message starts with
    "Scrape failed: "; it is never the "No new anime releases today."
    payload. *)
Theorem scrape_latest_response_shape :
  forall parse_html_parser parse_lxml urljoin serve fs writable read_error now,
  let v := scrape_latest (snd (scrape_comicat_today parse_html_parser parse_lxml urljoin serve fs
                                 writable read_error now)) in
  ((exists items, v = PList (map PInfo items) /\ (List.length items <= 5)%nat) \/
   (exists m, v = error_payload (cps "Scrape failed: " ++ m))) /\
  v <> error_payload (cps "No new anime releases today.").
Proof.
  intros P L J serve fs writable read_error now v; subst v.
  destruct (snd (scrape_comicat_today P L J serve fs writable read_error now)) as [[items msg]|e] eqn:E.
  - destruct (scrape_comicat_today_shape _ _ _ _ _ _ _ _ _ _ E) as [Hl _].
    change (scrape_latest (Ok (items, msg))) with (PList (map PInfo items)).
    split; [left; eauto|discriminate].
  - cbn [scrape_latest]; split; [right; eauto|].
    unfold error_payload; intros H; injection H as H; discriminate H.
Qed.

Lemma parse_rows_exc_source : forall parse_lxml urljoin rows cl k now count e,
  fst (parse_rows parse_lxml urljoin rows cl k now count) = Exc e ->
  exists tr, In tr rows /\
    (((4 <= List.length (row_tds tr))%nat /\
      parse_cn_time (clean_text (get_text (row_cell 0 tr))) now = Exc e) \/
     (row_retained tr = true /\ exists a, find_a_href (row_cell 2 tr) = Some a /\
        urljoin BASE_URL (strip (href_of a)) = Exc e)).
Proof.
  intros parse_lxml urljoin rows; induction rows as [|tr rows IH]; intros cl k now count e H;
    cbn [parse_rows] in H; cbv zeta in H; [discriminate|].
  assert (Lift : forall c', fst (parse_rows parse_lxml urljoin rows cl k now c') = Exc e ->
            exists tr', In tr' (tr :: rows) /\
              (((4 <= List.length (row_tds tr'))%nat /\
                parse_cn_time (clean_text (get_text (row_cell 0 tr'))) now = Exc e) \/
               (row_retained tr' = true /\ exists a, find_a_href (row_cell 2 tr') = Some a /\
                  urljoin BASE_URL (strip (href_of a)) = Exc e))).
  { intros c' H'; destruct (IH cl k now c' e H') as (tr' & Hin & Hx); exists tr'; split; [right|]; assumption. }
  destruct (List.length (find_all_children (cps "td") tr) <? 4)%nat eqn:E4; [eauto|].
  apply Nat.ltb_ge in E4.
  destruct (parse_cn_time _ now) as [dt|e'] eqn:Ed.
  2:{ simpl in H; inversion H; subst; exists tr; split; [left; reflexivity|left; split; assumption]. }
  destruct (find_a_href _) as [a|] eqn:Ea; [|eauto].
  destruct (urljoin BASE_URL (strip (href_of a))) as [du|e'] eqn:Eu.
  2:{ simpl in H; inversion H; subst; exists tr; split; [left; reflexivity|right; split; [|eauto]].
      unfold row_retained, row_cell, row_tds; rewrite Ea.
      apply andb_true_intro; split; [apply Nat.leb_le; exact E4|reflexivity]. }
  destruct (resolve_url parse_lxml cl k count du) as [[fu c'] ev0].
  destruct (parse_rows parse_lxml urljoin rows cl k now c') as [r evs'] eqn:Ep.
  apply (Lift c'); rewrite Ep; simpl in H |- *; destruct r; [discriminate|exact H].
Qed.

(** X17: when [_parse_today_table] raises, the exception is the one
    [html.parser] raises on the markup, or, on the document it builds, the
    one [_parse_cn_time] raises on the date cell of a row with four or more
    cells, or the one [urljoin] raises on the link of a retained row. *)
Theorem parse_today_table_exception_source : forall parse_html_parser parse_lxml urljoin html cl k now e,
  fst (parse_today_table parse_html_parser parse_lxml urljoin html cl k now) = Exc e ->
  parse_html_parser html = Exc e \/
  exists doc tr, parse_html_parser html = Ok doc /\ In tr (table_rows doc) /\
    (((4 <= List.length (row_tds tr))%nat /\
      parse_cn_time (clean_text (get_text (row_cell 0 tr))) now = Exc e) \/
     (row_retained tr = true /\ exists a, find_a_href (row_cell 2 tr) = Some a /\
        urljoin BASE_URL (strip (href_of a)) = Exc e)).
Proof.
  intros P L J html cl k now e H; unfold parse_today_table in H; unfold table_rows.
  destruct (P html) as [doc|e']; [|left; inversion H; reflexivity].
  right; exists doc.
  destruct (select_list_table doc) as [tb|]; [|discriminate].
  destruct (parse_rows_exc_source L J _ cl k now 0 e H) as (tr & Hin & Hx).
  exists tr; auto.
Qed.

(** Witness of X17: the page whose only row is dated "今天 25:00". *)
Lemma parse_today_table_exception_source_witness :
  (Ok bad_date_page : res (list node)) = Exc (ValueError "hour must be in 0..23") \/
  exists doc tr, (Ok bad_date_page : res (list node)) = Ok doc /\ In tr (table_rows doc) /\
    (((4 <= List.length (row_tds tr))%nat /\
      parse_cn_time (clean_text (get_text (row_cell 0 tr))) sample_now = Exc (ValueError "hour must be in 0..23")) \/
     (row_retained tr = true /\ exists a, find_a_href (row_cell 2 tr) = Some a /\
        join_path BASE_URL (strip (href_of a)) = Exc (ValueError "hour must be in 0..23"))).
Proof.
  apply (parse_today_table_exception_source (fun _ => Ok bad_date_page) detail_dom join_path [] None 12 sample_now).
  vm_compute; reflexivity.
Defined.
